(** * scripts/download_usc_zip.py: bulk USC XML download and extraction

    A shallow embedding of the script.  The script is a straight line of
    effects on the console, the network and the file system, so every
    function of the source is a computation in a state-and-exception monad
    over an explicit [World].  The pieces of the outside world the script
    talks to (the HTTP server, the HTML parser of BeautifulSoup, the reader
    of the ZIP central directory, the location of the script) are collected
    in the class [Environment]. *)

From stdpp Require Import gmap strings list.
From Stdlib Require Import ZArith Ascii String.
From Stdlib.Strings Require Import Byte.

Local Open Scope Z_scope.

(** ** Python values used by the script *)

(** [bytes]: the chunks of a response body and the contents of files. *)
Abbreviation bytes := (list Byte.byte).

Global Instance byte_eq_dec : EqDecision Byte.byte := Byte.byte_eq_dec.

(** The exceptions the script can see.  [HTTPError] and [ConnectionError]
    come from requests, [BadZipFile] from zipfile, the four file-system
    ones are the [OSError] subclasses raised by [os] and [open]. *)
Inductive exception :=
| HTTPError (status : Z)
| ConnectionError
| RuntimeError (msg : string)
| ValueError (msg : string)
| BadZipFile
| FileExistsError
| FileNotFoundError
| NotADirectoryError
| IsADirectoryError
| IndexError
| KeyError.

Global Instance exception_eq_dec : EqDecision exception.
Proof. solve_decision. Defined.

(** ** Paths

    The script only handles absolute paths normalised by [os.path.abspath].
    Such a path is the root or a directory followed by one more component,
    which is exactly what [os.path.split] returns. *)
Inductive path :=
| Root
| Child (head : path) (tail : string).

Global Instance path_eq_dec : EqDecision path.
Proof. solve_decision. Defined.

Fixpoint path_to_list (p : path) : list string :=
  match p with
  | Root => []
  | Child h t => t :: path_to_list h
  end.

Fixpoint list_to_path (l : list string) : path :=
  match l with
  | [] => Root
  | t :: l' => Child (list_to_path l') t
  end.

Global Instance path_countable : Countable path.
Proof.
  apply (inj_countable' path_to_list list_to_path).
  intros p. induction p as [|h IH t]; simpl; congruence.
Defined.

(** [os.path.dirname] *)
Definition dirname (p : path) : path :=
  match p with
  | Root => Root
  | Child h _ => h
  end.

(** One step of [os.path.normpath] on an absolute path: the empty component
    and [.] are dropped, [..] goes to the parent (the parent of the root is
    the root), anything else is appended. *)
Definition norm_step (p : path) (c : string) : path :=
  if decide (c = EmptyString) then p
  else if decide (c = "."%string) then p
  else if decide (c = ".."%string) then dirname p
  else Child p c.

(** [os.path.normpath (os.path.join p rel)] for [rel] given by its
    components. *)
Definition normjoin (p : path) (rel : list string) : path :=
  foldl norm_step p rel.

(** [str.split sep] for a one-character separator. *)
Fixpoint split_on (sep : ascii) (s : string) : list string :=
  match s with
  | EmptyString => [EmptyString]
  | String c s' =>
      if Ascii.eqb c sep then EmptyString :: split_on sep s'
      else match split_on sep s' with
           | [] => [String c EmptyString]
           | w :: ws => String c w :: ws
           end
  end.

(** The text of a path, as [print] shows it. *)
Fixpoint path_str (p : path) : string :=
  match p with
  | Root => EmptyString
  | Child h t => (path_str h +:+ "/" +:+ t)%string
  end.

(** ** The world *)

Inductive inode :=
| File (data : bytes)
| Dir.

Global Instance inode_eq_dec : EqDecision inode.
Proof. solve_decision. Defined.

(** The progress bar of tqdm: the target it was created with and the
    counter advanced by [update]. *)
Record tqdm := mk_tqdm {
  total : Z;
  n : Z;
  closed : bool
}.

Record World := mkWorld {
  fs : gmap path inode;          (* the file system, by absolute path *)
  open_files : gset nat;         (* descriptors of the open file objects *)
  next_fd : nat;                 (* the descriptor the next [open] gets *)
  stdout : list string;          (* lines written by [print] *)
  requests_sent : list string;   (* URLs of the GET requests issued *)
  pbar : option tqdm             (* the progress bar on the terminal *)
}.

Definition set_fs (f : gmap path inode → gmap path inode) (w : World) : World :=
  mkWorld (f (fs w)) (open_files w) (next_fd w) (stdout w) (requests_sent w) (pbar w).

Definition set_pbar (b : option tqdm) (w : World) : World :=
  mkWorld (fs w) (open_files w) (next_fd w) (stdout w) (requests_sent w) b.

(** [os.stat]: the root is a directory; any other path is visible only
    through a chain of directories. *)
Fixpoint stat (m : gmap path inode) (p : path) : option inode :=
  match p with
  | Root => Some Dir
  | Child h _ =>
      match stat m h with
      | Some Dir => m !! p
      | _ => None
      end
  end.

(** ** The monad of the script: state and exceptions *)

Inductive outcome (A : Type) :=
| Returns (a : A)
| Raises (e : exception).
Arguments Returns {A} a.
Arguments Raises {A} e.

Definition M (A : Type) : Type := World → outcome A * World.

Definition ret {A} (a : A) : M A := λ w, (Returns a, w).

Definition raise {A} (e : exception) : M A := λ w, (Raises e, w).

Definition bind {A B} (c : M A) (k : A → M B) : M B :=
  λ w, match c w with
       | (Returns a, w') => k a w'
       | (Raises e, w') => (Raises e, w')
       end.

Notation "'let*' x ':=' c 'in' k" := (bind c (λ x, k))
  (at level 10, x name, c at level 100, k at level 200).
Notation "'do' c 'in' k" := (bind c (λ _, k))
  (at level 10, c at level 100, k at level 200).

(** [try: c  except <handled>: h] *)
Definition try_except {A} (c : M A) (handled : exception → bool)
    (h : exception → M A) : M A :=
  λ w, match c w with
       | (Raises e, w') => if handled e then h e w' else (Raises e, w')
       | r => r
       end.

(** [try: c  finally: cleanup], for a cleanup that does not raise. *)
Definition finally {A} (c : M A) (cleanup : M unit) : M A :=
  λ w, match c w with
       | (r, w') => (r, snd (cleanup w'))
       end.

(** [with enter as x: body], leaving through [exit x] on every path. *)
Definition with_as {R A} (enter : M R) (exit : R → M unit) (body : R → M A) : M A :=
  let* x := enter in finally (body x) (exit x).

(** [print] *)
Definition print (line : string) : M unit :=
  λ w, (Returns tt,
        mkWorld (fs w) (open_files w) (next_fd w) (stdout w ++ [line])
                (requests_sent w) (pbar w)).

(** ** os *)

Definition is_OSError (e : exception) : bool :=
  match e with
  | FileExistsError | FileNotFoundError | NotADirectoryError
  | IsADirectoryError | HTTPError _ | ConnectionError => true
  | _ => false
  end.

Definition is_FileExistsError (e : exception) : bool :=
  match e with
  | FileExistsError => true
  | _ => false
  end.

(** [os.path.exists] and [os.path.isdir] *)
Definition path_exists (p : path) : M bool :=
  λ w, (Returns (bool_decide (is_Some (stat (fs w) p))), w).

Definition isdir (p : path) : M bool :=
  λ w, (Returns (bool_decide (stat (fs w) p = Some Dir)), w).

(** [os.mkdir] *)
Definition mkdir (p : path) : M unit :=
  λ w, match stat (fs w) p with
       | Some _ => (Raises FileExistsError, w)
       | None =>
           match stat (fs w) (dirname p) with
           | None => (Raises FileNotFoundError, w)
           | Some (File _) => (Raises NotADirectoryError, w)
           | Some Dir => (Returns tt, set_fs (insert p Dir) w)
           end
       end.

(** The last statement of [os.makedirs]: [mkdir], where an [OSError] is
    swallowed when [exist_ok] holds and the name is a directory. *)
Definition mkdir_exist_ok (name : path) (exist_ok : bool) : M unit :=
  try_except (mkdir name) is_OSError
    (λ e, let* d := isdir name in
          if negb exist_ok || negb d then raise e else ret tt).

(** [os.makedirs]: the recursion of the library, on [os.path.split name].
    (Its test [tail == curdir] only concerns paths that are not normalised.) *)
Fixpoint makedirs (name : path) (exist_ok : bool) : M unit :=
  match name with
  | Root => mkdir_exist_ok name exist_ok
  | Child head _ =>
      let* head_exists := path_exists head in
      do (if head_exists then ret tt
          else try_except (makedirs head exist_ok) is_FileExistsError (λ _, ret tt)) in
      mkdir_exist_ok name exist_ok
  end.

(** ** Strings *)

Definition dquote : string := String (ascii_of_nat 34) EmptyString.

(** [s[:k]] *)
Fixpoint str_take (k : nat) (s : string) : string :=
  match k, s with
  | S k', String c s' => String c (str_take k' s')
  | _, _ => EmptyString
  end.

(** [s[-1]], [None] standing for [IndexError]. *)
Fixpoint last_char (s : string) : option ascii :=
  match s with
  | EmptyString => None
  | String c s' =>
      match s' with
      | EmptyString => Some c
      | String _ _ => last_char s'
      end
  end.

(** [str.lower], on the ASCII letters. *)
Definition lower_ascii (c : ascii) : ascii :=
  let k := nat_of_ascii c in
  if ((65 <=? k) && (k <=? 90))%nat then ascii_of_nat (k + 32) else c.

Fixpoint lower (s : string) : string :=
  match s with
  | EmptyString => EmptyString
  | String c s' => String (lower_ascii c) (lower s')
  end.

Definition is_space (c : ascii) : bool :=
  let k := nat_of_ascii c in
  ((9 <=? k) && (k <=? 13) || (28 <=? k) && (k <=? 32)
   || (k =? 133) || (k =? 160))%nat.

Definition is_digit (c : ascii) : bool :=
  let k := nat_of_ascii c in ((48 <=? k) && (k <=? 57))%nat.

Fixpoint lstrip (s : string) : string :=
  match s with
  | String c s' => if is_space c then lstrip s' else s
  | EmptyString => s
  end.

Definition strip (s : string) : string :=
  String.rev (lstrip (String.rev (lstrip s))).

(** The digits of a decimal literal: groups of digits separated by single
    underscores. *)
Fixpoint digits_value (acc : Z) (after_digit : bool) (s : string) : option Z :=
  match s with
  | EmptyString => if after_digit then Some acc else None
  | String c s' =>
      if is_digit c then
        digits_value (10 * acc + Z.of_nat (nat_of_ascii c - 48)) true s'
      else if Ascii.eqb c "_" then
        if after_digit then digits_value acc false s' else None
      else None
  end.

(** [int(s)] for a string, base 10; [None] stands for [ValueError].
    (The interpreter's limit on the number of digits is left out.) *)
Definition py_int (s : string) : option Z :=
  match strip s with
  | String "+" d => digits_value 0 false d
  | String "-" d => Z.opp <$> digits_value 0 false d
  | d => digits_value 0 false d
  end.

(** ** bs4: the parsed document *)

#[warnings="-register-all"] Inductive PageElement :=
| NavigableString (s : string)
| Tag (name : string) (attrs : gmap string string) (contents : list PageElement).

(** [Tag.descendants]: the elements below a tag, in document order. *)
Fixpoint descendants (e : PageElement) : list PageElement :=
  match e with
  | NavigableString _ => []
  | Tag _ _ contents => flat_map (λ c, c :: descendants c) contents
  end.

(** The elements of a document, in document order. *)
Definition soup_elements (soup : list PageElement) : list PageElement :=
  flat_map (λ c, c :: descendants c) soup.

(** The test of [find(name, **attrs)] for one attribute: a tag of that name
    whose attribute is exactly the given string. *)
Definition matches (name attr value : string) (e : PageElement) : bool :=
  match e with
  | NavigableString _ => false
  | Tag name' attrs _ =>
      bool_decide (name' = name) && bool_decide (attrs !! attr = Some value)
  end.

(** [soup.find(name, attr=value)]: the first match in document order, or
    [None]. The soup is given by its top-level contents. *)
Definition find (soup : list PageElement) (name attr value : string)
    : option PageElement :=
  snd <$> list_find (λ e, matches name attr value e = true)
                    (soup_elements soup).

(** [link.get(attr)] *)
Definition tag_get (link : PageElement) (attr : string) : option string :=
  match link with
  | NavigableString _ => None
  | Tag _ attrs _ => attrs !! attr
  end.

(** ** requests: responses *)

(** The generator returned by [Response.iter_content]: it yields chunks and
    stops, or raises when the transfer breaks. *)
Inductive body_iter :=
| StopIteration
| Yield (chunk : bytes) (rest : body_iter)
| IterRaises (e : exception).

Fixpoint iter_of_list (chunks : list bytes) : body_iter :=
  match chunks with
  | [] => StopIteration
  | c :: cs => Yield c (iter_of_list cs)
  end.

(** [requests.structures.CaseInsensitiveDict]: the store is keyed by the
    lower-cased header name and keeps the name as it was sent. *)
Record CaseInsensitiveDict := mk_headers {
  _store : gmap string (string * string)
}.

Definition headers_get (h : CaseInsensitiveDict) (key : string) : option string :=
  snd <$> _store h !! lower key.

Record Response := mk_response {
  status_code : Z;
  headers : CaseInsensitiveDict;
  text : string;
  raw : body_iter      (* the body as it arrives, piece by piece *)
}.

(** [Response.iter_content(chunk_size)]: how the body is cut into chunks is
    up to the transfer; nothing below depends on the chunk size. *)
Definition iter_content (r : Response) (chunk_size : Z) : body_iter := raw r.

(** ** zipfile: archive members *)

Record ZipInfo := mk_zipinfo {
  filename : string;
  member_data : bytes      (* what [ZipFile.open(member).read()] gives *)
}.

(** ** The environment of a run *)

Class Environment := {
  (** [os.path.abspath(os.path.dirname(__file__))] *)
  script_dir : path;
  (** what the server answers to a GET, or the transport failure *)
  http_get : string → outcome Response;
  (** [BeautifulSoup(text, 'html.parser')], as the top-level contents *)
  html_parser : string → list PageElement;
  (** the members zipfile reads from the bytes of a file, [None] when it
      raises [BadZipFile] *)
  zip_members : bytes → option (list ZipInfo)
}.

(** ** File objects *)

Record file_obj := mk_file {
  fileno : nat;
  fname : path
}.

(** The state change of a successful [open]: a fresh descriptor. *)
Definition alloc_fd (w : World) : World :=
  mkWorld (fs w) ({[next_fd w]} ∪ open_files w) (S (next_fd w)) (stdout w)
          (requests_sent w) (pbar w).

(** [open(p, 'wb')]: creates the file or truncates it. *)
Definition open_wb (p : path) : M file_obj :=
  λ w, match stat (fs w) p with
       | Some Dir => (Raises IsADirectoryError, w)
       | _ =>
           match stat (fs w) (dirname p) with
           | None => (Raises FileNotFoundError, w)
           | Some (File _) => (Raises NotADirectoryError, w)
           | Some Dir =>
               (Returns (mk_file (next_fd w) p),
                alloc_fd (set_fs (insert p (File [])) w))
           end
       end.

(** [f.write(data)]: appends at the end of the file. *)
Definition write (f : file_obj) (data : bytes) : M unit :=
  λ w, if bool_decide (fileno f ∈ open_files w) then
         match stat (fs w) (fname f) with
         | Some (File old) =>
             (Returns tt, set_fs (insert (fname f) (File (old ++ data))) w)
         | _ => (Raises FileNotFoundError, w)
         end
       else (Raises (ValueError "I/O operation on closed file."), w).

(** [f.close()], also the exit of [with open(...) as f]. *)
Definition close (f : file_obj) : M unit :=
  λ w, (Returns tt,
        mkWorld (fs w) (open_files w ∖ {[fileno f]}) (next_fd w) (stdout w)
                (requests_sent w) (pbar w)).

(** ** tqdm *)

(** [tqdm(total=total, ...)] *)
Definition tqdm_new (total : Z) : M unit :=
  λ w, (Returns tt, set_pbar (Some (mk_tqdm total 0 false)) w).

(** [pbar.update(k)] *)
Definition tqdm_update (k : Z) : M unit :=
  λ w, (Returns tt,
        set_pbar ((λ b, mk_tqdm (total b) (n b + k) (closed b)) <$> pbar w) w).

(** [pbar.close()], the exit of the [with]. *)
Definition tqdm_close (_ : unit) : M unit :=
  λ w, (Returns tt,
        set_pbar ((λ b, mk_tqdm (total b) (n b) true) <$> pbar w) w).


(** ** requests *)

(** [Response.raise_for_status] *)
Definition raise_for_status (r : Response) : M unit :=
  if bool_decide (400 ≤ status_code r < 600)
  then raise (HTTPError (status_code r))
  else ret tt.

(** The loop [for chunk in r.iter_content(...): body]. *)
Fixpoint for_chunks (it : body_iter) (body : bytes → M unit) : M unit :=
  match it with
  | StopIteration => ret tt
  | Yield chunk rest => do body chunk in for_chunks rest body
  | IterRaises e => raise e
  end.

(** ** zipfile (CPython 3.11) *)

Record ZipFile := mk_zip {
  fp : file_obj;
  filelist : list ZipInfo
}.

(** [open(p, 'rb')] *)
Definition open_rb (p : path) : M file_obj :=
  λ w, match stat (fs w) p with
       | None => (Raises FileNotFoundError, w)
       | Some Dir => (Raises IsADirectoryError, w)
       | Some (File _) => (Returns (mk_file (next_fd w) p), alloc_fd w)
       end.

(** [f.read()] from the start of the file. *)
Definition read (f : file_obj) : M bytes :=
  λ w, if bool_decide (fileno f ∈ open_files w) then
         match stat (fs w) (fname f) with
         | Some (File data) => (Returns data, w)
         | _ => (Raises FileNotFoundError, w)
         end
       else (Raises (ValueError "I/O operation on closed file."), w).

(** [ZipInfo.is_dir]: [self.filename[-1] == '/']. *)
Definition is_dir (member : ZipInfo) : M bool :=
  match last_char (filename member) with
  | None => raise IndexError
  | Some c => ret (Ascii.eqb c "/")
  end.

(** [ZipFile.getinfo]: the name table keeps the last member of a name. *)
Definition getinfo (z : ZipFile) (name : string) : M ZipInfo :=
  match last (filter (λ m, filename m = name) (filelist z)) with
  | Some member => ret member
  | None => raise KeyError
  end.

(** [ZipFile.namelist] *)
Definition namelist (z : ZipFile) : list string :=
  filename <$> filelist z.

Definition invalid_path_part (x : string) : bool :=
  bool_decide (x = EmptyString ∨ x = "."%string ∨ x = ".."%string).

(** The components of the sanitised [arcname] of [_extract_member]. *)
Definition arcname (member : ZipInfo) : list string :=
  filter (λ x, invalid_path_part x = false) (split_on "/" (filename member)).

(** The loop [for x in l: body]. *)
Fixpoint for_each {A} (l : list A) (body : A → M unit) : M unit :=
  match l with
  | [] => ret tt
  | x :: l' => do body x in for_each l' body
  end.

(** [ZipFile._extract_member] *)
Definition _extract_member (z : ZipFile) (name : string) (targetpath : path)
    : M unit :=
  let* member := getinfo z name in
  let targetpath := foldl Child targetpath (arcname member) in
  let upperdirs := dirname targetpath in
  let* upper_exists := path_exists upperdirs in
  do (if negb upper_exists then makedirs upperdirs false else ret tt) in
  let* d := is_dir member in
  if d then
    let* target_isdir := isdir targetpath in
    if negb target_isdir then mkdir targetpath else ret tt
  else
    with_as (open_wb targetpath) close (λ target,
      if bool_decide (member_data member ≠ []) then
        write target (member_data member)
      else ret tt).

(** [ZipFile.extractall] *)
Definition extractall (z : ZipFile) (path : path) : M unit :=
  for_each (namelist z) (λ name, _extract_member z name path).

(** The body of the download loop, lines 39 to 41. *)
Definition save_chunk (f : file_obj) (chunk : bytes) : M unit :=
  if bool_decide (chunk ≠ []) then
    do write f chunk in
    tqdm_update (Z.of_nat (List.length chunk))
  else ret tt.

(** ** The script *)

Section Script.
Context `{env : Environment}.

(** [requests.get(url, stream=stream)] *)
Definition requests_get (url : string) (stream : bool) : M Response :=
  λ w, (http_get url,
        mkWorld (fs w) (open_files w) (next_fd w) (stdout w)
                (requests_sent w ++ [url]) (pbar w)).

Definition RAW_DIR : path :=
  normjoin script_dir (split_on "/" "../data/raw").
Definition XML_DIR : path :=
  normjoin script_dir (split_on "/" "../data/xml").
Definition ZIP_OUTPUT_PATH : path :=
  normjoin RAW_DIR (split_on "/" "usc.zip").
Definition DOWNLOAD_PAGE_URL : string :=
  "https://uscode.house.gov/download/download.shtml".

Definition EXPECTED_TITLE : string := "All USC Titles in XML".
Definition ORIGIN : string := "https://uscode.house.gov".

Definition ensure_dirs : M unit :=
  do makedirs RAW_DIR true in
  makedirs XML_DIR true.

(** The message of the exception raised when the link is not found. *)
Definition LINK_NOT_FOUND : exception :=
  RuntimeError "Could not find XML ZIP link on download page".

(** Lines 24 to 26: the failure branch of [get_bulk_xml_url]. *)
Definition link_not_found (resp : Response) : M string :=
  do print ("Could not find <a> tag with title=" +:+ dquote
            +:+ EXPECTED_TITLE +:+ dquote
            +:+ ". Dumping a snippet of HTML:") in
  do print (str_take 2000 (text resp)) in
  raise LINK_NOT_FOUND.

Definition get_bulk_xml_url : M string :=
  do print "Fetching download page..." in
  let* resp := requests_get DOWNLOAD_PAGE_URL false in
  do raise_for_status resp in
  let soup := html_parser (text resp) in
  let link := find soup "a" "title" EXPECTED_TITLE in
  match link with
  | None => link_not_found resp
  | Some link =>
      match tag_get link "href" with
      | None => link_not_found resp
      | Some href =>
          if bool_decide (href = EmptyString) then link_not_found resp
          else
            let url := if String.prefix "http" href then href
                       else (ORIGIN +:+ href)%string in
            do print ("Found bulk XML ZIP URL: " +:+ url) in
            ret url
      end
  end.

(** The world once the download page has been asked for. *)
Definition fetched (w : World) : World :=
  mkWorld (fs w) (open_files w) (next_fd w)
          (stdout w ++ ["Fetching download page..."%string])
          (requests_sent w ++ [DOWNLOAD_PAGE_URL]) (pbar w).

(** The outcome shared by every failure to find the link: the exception,
    after the notice and a bounded prefix of the body were printed. *)
Definition fails_link_not_found (resp : Response) (w : World)
    (r : outcome string * World) : Prop :=
  ∃ header snippet,
    fst r = Raises LINK_NOT_FOUND
    ∧ stdout (snd r) = stdout w ++ ["Fetching download page..."%string; header; snippet]
    ∧ snippet = str_take 2000 (text resp)
    ∧ String.length snippet = (2000 `min` String.length (text resp))%nat
    ∧ String.prefix snippet (text resp) = true
    ∧ fs (snd r) = fs w
    ∧ requests_sent (snd r) = requests_sent w ++ [DOWNLOAD_PAGE_URL].

(** [int(r.headers.get('content-length', 0))] *)
Definition content_length (r : Response) : M Z :=
  match headers_get (headers r) "content-length" with
  | None => ret 0
  | Some v =>
      match py_int v with
      | Some k => ret k
      | None => raise (ValueError "invalid literal for int() with base 10")
      end
  end.

Definition download_file (url : string) (output_path : path) : M unit :=
  do print ("Downloading " +:+ url +:+ " to " +:+ path_str output_path +:+ "...") in
  do with_as (requests_get url true) (λ _, ret tt) (λ r,
       do raise_for_status r in
       let* total := content_length r in
       with_as (open_wb output_path) close (λ f,
         with_as (tqdm_new total) tqdm_close (λ _,
           for_chunks (iter_content r 8192) (save_chunk f)))) in
  print "Download completed successfully.".

(** Lines 35 to 41: what [download_file] does with the response. *)
Definition transfer (r : Response) (output_path : path) : M unit :=
  do raise_for_status r in
  let* total := content_length r in
  with_as (open_wb output_path) close (λ f,
    with_as (tqdm_new total) tqdm_close (λ _,
      for_chunks (iter_content r 8192) (save_chunk f))).

(** [ZipFile(file, 'r')]: opens the file and reads the directory of the
    archive; the file is closed again when that fails. *)
Definition ZipFile_init (file : path) : M ZipFile :=
  let* fp := open_rb file in
  let* data := read fp in
  match zip_members data with
  | Some members => ret (mk_zip fp members)
  | None => do close fp in raise BadZipFile
  end.

Definition unzip_to_xml_dir (zip_path out_dir : path) : M unit :=
  do print ("Unzipping " +:+ path_str zip_path +:+ " to " +:+ path_str out_dir +:+ "...") in
  do with_as (ZipFile_init zip_path) (λ z, close (fp z)) (λ zip_ref,
       extractall zip_ref out_dir) in
  print "Unzip complete.".

Definition main : M unit :=
  do ensure_dirs in
  let* url := get_bulk_xml_url in
  do download_file url ZIP_OUTPUT_PATH in
  do unzip_to_xml_dir ZIP_OUTPUT_PATH XML_DIR in
  print "USC XML download and extraction complete.".

End Script.

(** ** Notions used in the statements about extraction *)

(** [above q p]: [q] is [p] or one of the directories on the way to [p]. *)
Fixpoint above (q p : path) : Prop :=
  q = p ∨ match p with
          | Root => False
          | Child h _ => above q h
          end.

(** Every entry of the file system can be reached from the root. *)
Definition fs_reachable (m : gmap path inode) : Prop :=
  ∀ p nd, m !! p = Some nd → stat m p = Some nd.

(** The name of the member ends with a slash: the member is a directory. *)
Definition is_dir_name (member : ZipInfo) : bool :=
  match last_char (filename member) with
  | Some c => Ascii.eqb c "/"
  | None => false
  end.

(** Where a member goes under the destination directory. *)
Definition target (out_dir : path) (member : ZipInfo) : path :=
  foldl Child out_dir (arcname member).

(** What a member leaves at its place. *)
Definition extracted (member : ZipInfo) : inode :=
  if is_dir_name member then Dir else File (member_data member).

(** The name of a member is a relative path in normal form: for a file,
    sanitising the components of its name changes nothing. *)
Definition proper_member (member : ZipInfo) : Prop :=
  arcname member ≠ []
  ∧ (is_dir_name member = false →
     arcname member = split_on "/" (filename member)).

(** No file of the archive sits at the place of another member or on the
    way to it. *)
Definition clash_free (members : list ZipInfo) : Prop :=
  ∀ i j m m',
    members !! i = Some m → members !! j = Some m' → i ≠ j →
    is_dir_name m = false → ¬ arcname m `prefix_of` arcname m'.

Definition well_formed_archive (members : list ZipInfo) : Prop :=
  Forall proper_member members ∧ clash_free members.

(** The destination has room for a member: no file on the way to its
    place, and at its place nothing of the other kind. *)
Definition fits (out_dir : path) (m : gmap path inode) (member : ZipInfo) : Prop :=
  (∀ k d, (k < List.length (arcname member))%nat →
          stat m (foldl Child out_dir (take k (arcname member))) ≠ Some (File d))
  ∧ (if is_dir_name member
     then ∀ d, stat m (target out_dir member) ≠ Some (File d)
     else stat m (target out_dir member) ≠ Some Dir).

(** ** Notions used in the statements about what a step leaves alone *)

(** A computation keeps to a relation between the world before and the
    world after, whatever its outcome. *)
Definition respects {A} (R : World → World → Prop) (c : M A) : Prop :=
  ∀ w, R w (snd (c w)).

(** Nothing printed, no request sent. *)
Definition quiet (w w' : World) : Prop :=
  stdout w' = stdout w ∧ requests_sent w' = requests_sent w.

(** No handle is open that was not open before. *)
Definition no_new_handle (w w' : World) : Prop :=
  open_files w' ⊆ open_files w.

(** Every path but [p] that was visible is still there, unchanged. *)
Definition keeps_but (p : path) (w w' : World) : Prop :=
  ∀ q nd, q ≠ p → stat (fs w) q = Some nd → stat (fs w') q = Some nd.

(** Everything that was visible is still there, unchanged. *)
Definition keeps_all (w w' : World) : Prop :=
  ∀ q nd, stat (fs w) q = Some nd → stat (fs w') q = Some nd.

(** In a reachable file system where [o] is a directory, this stays so and
    whatever is new lies under [o]. *)
Definition confined (o : path) (w w' : World) : Prop :=
  fs_reachable (fs w) → stat (fs w) o = Some Dir →
  fs_reachable (fs w') ∧ stat (fs w') o = Some Dir
  ∧ ∀ q nd, stat (fs w') q = Some nd → stat (fs w) q = Some nd ∨ above o q.

(** In a reachable file system, whatever is new satisfies [P]. *)
Definition only_new (P : path → inode → Prop) (w w' : World) : Prop :=
  fs_reachable (fs w) →
  fs_reachable (fs w')
  ∧ ∀ q nd, stat (fs w') q = Some nd → stat (fs w) q = Some nd ∨ P q nd.


(** ** Fixtures: a small world to run the script in *)

Definition bytes_of (s : string) : bytes := list_byte_of_string s.

Definition empty_world : World := mkWorld ∅ ∅ 3%nat [] [] None.

Definition anchor (href : option string) : PageElement :=
  Tag "a" (match href with
           | Some h => <["href" := h]> {["title" := "All USC Titles in XML"]}
           | None => {["title" := "All USC Titles in XML"]}
           end)%string
      [NavigableString "All USC Titles in XML"].

(** A page with the anchor below [body], after another anchor. *)
Definition page (href : option string) : list PageElement :=
  [Tag "html" ∅
     [Tag "body" ∅
        [Tag "a" {["href" := "/browse.xhtml"]}%string [NavigableString "Browse"];
         Tag "p" ∅ [anchor href]]]].

Definition fixture_members : list ZipInfo :=
  [mk_zipinfo "a.txt" (bytes_of "alpha"); mk_zipinfo "sub/b.txt" (bytes_of "beta")].

Definition fixture_archive : bytes := bytes_of "PK:a.txt,sub/b.txt".

Definition page_response (status : Z) : Response :=
  mk_response status (mk_headers ∅) "<html>the page</html>" StopIteration.

Definition zip_response (status : Z) (hdrs : gmap string (string * string))
    (chunks : body_iter) : Response :=
  mk_response status (mk_headers hdrs) EmptyString chunks.

Definition fixture_zip_url : string := "https://uscode.house.gov/download/usc.zip".

(** The server: the download page carries the link with the given href; the
    archive arrives in the given chunks. *)
Definition fixture_env (href : option string) (page_status zip_status : Z)
    (hdrs : gmap string (string * string)) (chunks : body_iter) : Environment :=
  {| script_dir := Child (Child (Child Root "srv") "lexica") "scripts";
     http_get url :=
       if bool_decide (url = "https://uscode.house.gov/download/download.shtml"%string)
       then Returns (page_response page_status)
       else Returns (zip_response zip_status hdrs chunks);
     html_parser text :=
       if bool_decide (text = "<html>the page</html>"%string) then page href else [];
     zip_members data :=
       if bool_decide (data = fixture_archive) then Some fixture_members else None |}.

Definition length_header (v : string) : gmap string (string * string) :=
  {["content-length"%string := ("Content-Length"%string, v)]}.

(** A run where everything goes well: the link is relative, the archive
    arrives in three chunks, one of them empty. *)
Definition fixture_chunks : list bytes :=
  [bytes_of "PK:a.txt,"; []; bytes_of "sub/b.txt"].

Definition happy_env : Environment :=
  fixture_env (Some "/download/usc.zip"%string) 200 200 (length_header "18")
              (iter_of_list fixture_chunks).

(** A transfer that breaks after the first chunk. *)
Definition broken_stream : body_iter :=
  Yield (bytes_of "PK:a.txt,") (IterRaises ConnectionError).

Definition broken_env : Environment :=
  fixture_env (Some "/download/usc.zip"%string) 200 200 (length_header "18")
              broken_stream.


(** The world after the directories were prepared. *)
Definition prepared_world : World := snd (@ensure_dirs happy_env empty_world).

(** Servers that answer the page or the archive with the given status. *)
Definition page_status_env (status : Z) : Environment :=
  fixture_env (Some "/download/usc.zip"%string) status 200 ∅ StopIteration.

Definition zip_status_env (status : Z) : Environment :=
  fixture_env (Some "/download/usc.zip"%string) 200 status ∅ StopIteration.



(** The world after the archive was downloaded. *)
Definition downloaded_world : World :=
  snd (@download_file happy_env fixture_zip_url (@ZIP_OUTPUT_PATH happy_env)
         (snd (@get_bulk_xml_url happy_env prepared_world))).

(** A file system where a regular file sits at the place of the raw
    directory. *)
Definition blocked_world : World :=
  mkWorld (<[@RAW_DIR happy_env := File []]> (fs prepared_world)) ∅ 3%nat [] [] None.

(** The same server with another href on the anchor. *)
Definition href_env (href : option string) : Environment :=
  fixture_env href 200 200 (length_header "18") (iter_of_list fixture_chunks).

(** A network where the archive, or everything, cannot be reached. *)
Definition unreachable_env (page_ok : bool) : Environment :=
  {| script_dir := Child (Child (Child Root "srv") "lexica") "scripts";
     http_get url :=
       if page_ok && bool_decide (url = "https://uscode.house.gov/download/download.shtml"%string)
       then Returns (page_response 200)
       else Raises ConnectionError;
     html_parser text := page (Some "/download/usc.zip"%string);
     zip_members data := None |}.

(** A server that sends a size that is not a number. *)
Definition bad_length_env : Environment :=
  fixture_env (Some "/download/usc.zip"%string) 200 200 (length_header "18 bytes")
              (iter_of_list fixture_chunks).



(** * Properties *)

(** ** The file system *)

Lemma stat_child m h t :
  stat m (Child h t) = match stat m h with Some Dir => m !! Child h t | _ => None end.
Proof. reflexivity. Qed.

Lemma stat_dir_head m h t nd :
  stat m (Child h t) = Some nd → stat m h = Some Dir.
Proof.
  rewrite stat_child. destruct (stat m h) as [[]|]; congruence.
Qed.

(** Writing at a path that is not a visible directory leaves every other
    visible path as it is. *)
Lemma stat_insert_frame m p v q nd :
  stat m p ≠ Some Dir → p ≠ q → stat m q = Some nd →
  stat (<[p := v]> m) q = Some nd.
Proof.
  intros Hp. revert nd. induction q as [|h IH t]; intros nd Hne Hq; [done|].
  pose proof (stat_dir_head _ _ _ _ Hq) as Hh.
  rewrite stat_child in Hq |- *. rewrite Hh in Hq.
  rewrite (IH Dir); [|congruence|done].
  by rewrite lookup_insert_ne.
Qed.

Lemma stat_insert_new m p v :
  stat m p ≠ Some Dir → stat m (dirname p) = Some Dir → p ≠ Root →
  stat (<[p := v]> m) p = Some v.
Proof.
  intros Hp Hd Hr. destruct p as [|h t]; [done|]. simpl in Hd.
  rewrite stat_child. rewrite (stat_insert_frame m _ v h Dir); try done.
  - by rewrite lookup_insert_eq.
  - intros Heq. assert (Hlen : List.length (path_to_list (Child h t))
                               = List.length (path_to_list h)) by (by rewrite Heq).
    simpl in Hlen. lia.
Qed.

(** ** os.makedirs *)


Lemma mkdir_returns p w w' :
  mkdir p w = (Returns tt, w') →
  stat (fs w) p = None ∧ stat (fs w) (dirname p) = Some Dir
  ∧ w' = set_fs (insert p Dir) w.
Proof.
  unfold mkdir. destruct (stat (fs w) p) eqn:Hp; [done|].
  destruct (stat (fs w) (dirname p)) as [[]|] eqn:Hd; try done.
  by intros [= <-].
Qed.

Lemma mkdir_raises p w e w' : mkdir p w = (Raises e, w') → w' = w.
Proof.
  unfold mkdir. destruct (stat (fs w) p); [congruence|].
  destruct (stat (fs w) (dirname p)) as [[]|]; congruence.
Qed.

Lemma mkdir_preserves p w r w' q nd :
  mkdir p w = (r, w') → stat (fs w) q = Some nd → stat (fs w') q = Some nd.
Proof.
  destruct r as [[]|e]; intros Hm Hq.
  - apply mkdir_returns in Hm as (Hp & _ & ->). simpl.
    apply stat_insert_frame; congruence.
  - by apply mkdir_raises in Hm as ->.
Qed.

Lemma mkdir_exist_ok_preserves p ok w r w' q nd :
  mkdir_exist_ok p ok w = (r, w') → stat (fs w) q = Some nd →
  stat (fs w') q = Some nd.
Proof.
  unfold mkdir_exist_ok, try_except. destruct (mkdir p w) as [[[]|e] w1] eqn:Hm.
  - intros [= <- <-]. eauto using mkdir_preserves.
  - apply mkdir_raises in Hm as ->.
    destruct (is_OSError e); [|by intros [= <- <-]].
    unfold bind, isdir. destruct (negb ok || negb _); by intros [= <- <-].
Qed.

Lemma mkdir_exist_ok_returns p ok w w' :
  mkdir_exist_ok p ok w = (Returns tt, w') → stat (fs w') p = Some Dir.
Proof.
  unfold mkdir_exist_ok, try_except. destruct (mkdir p w) as [[[]|e] w1] eqn:Hm.
  - intros [= <-]. apply mkdir_returns in Hm as (Hp & Hd & ->). simpl.
    apply stat_insert_new; [congruence|done|]. by intros ->.
  - apply mkdir_raises in Hm as ->.
    destruct (is_OSError e); [|done].
    unfold bind, isdir. case_bool_decide as Hd.
    + destruct (negb ok); simpl; [done|]. by intros [= <-].
    + rewrite orb_true_r. done.
Qed.

Lemma makedirs_unfold name ok :
  makedirs name ok =
  match name with
  | Root => mkdir_exist_ok name ok
  | Child head _ =>
      let* head_exists := path_exists head in
      do (if head_exists then ret tt
          else try_except (makedirs head ok) is_FileExistsError (λ _, ret tt)) in
      mkdir_exist_ok name ok
  end.
Proof. by destruct name. Qed.


(** When [makedirs] returns, the directory is there. *)
Lemma makedirs_returns name ok w w' :
  makedirs name ok w = (Returns tt, w') → stat (fs w') name = Some Dir.
Proof.
  rewrite makedirs_unfold. destruct name as [|h t].
  - apply mkdir_exist_ok_returns.
  - unfold bind at 1. unfold path_exists.
    unfold bind. destruct (if bool_decide _ then _ else _) as [[[]|e] w1]; [|done].
    apply mkdir_exist_ok_returns.
Qed.

(** Whatever [makedirs] does, what was visible stays. *)
Lemma makedirs_preserves name ok w r w' q nd :
  makedirs name ok w = (r, w') → stat (fs w) q = Some nd →
  stat (fs w') q = Some nd.
Proof.
  revert w r w'. induction name as [|h IH t]; intros w r w'.
  - apply mkdir_exist_ok_preserves.
  - rewrite makedirs_unfold. unfold bind at 1. unfold path_exists.
    unfold bind. case_bool_decide.
    + unfold ret. apply mkdir_exist_ok_preserves.
    + unfold try_except. destruct (makedirs h ok w) as [[[]|e] w1] eqn:Hm.
      * intros Hk Hq. eapply mkdir_exist_ok_preserves; eauto.
      * destruct (is_FileExistsError e).
        -- unfold ret. intros Hk Hq. eapply mkdir_exist_ok_preserves; eauto.
        -- intros [= <- <-]. eauto.
Qed.

(** ** Directory preparer *)

Section EnsureDirs.
Context `{env : Environment}.


Lemma ensure_dirs_returns w w' :
  ensure_dirs w = (Returns tt, w') →
  stat (fs w') RAW_DIR = Some Dir ∧ stat (fs w') XML_DIR = Some Dir.
Proof.
  unfold ensure_dirs, bind.
  destruct (makedirs RAW_DIR true w) as [[[]|e] w1] eqn:Hraw; [|done].
  intros Hxml. split.
  - eapply makedirs_preserves; eauto using makedirs_returns.
  - eauto using makedirs_returns.
Qed.


End EnsureDirs.


(** ** Strings *)

Lemma str_take_length k s : (String.length (str_take k s) ≤ k)%nat.
Proof.
  revert s. induction k as [|k IH]; intros [|c s]; simpl; try lia.
  specialize (IH s). lia.
Qed.

Lemma str_take_prefix k s : String.prefix (str_take k s) s = true.
Proof.
  revert s. induction k as [|k IH]; intros [|c s]; simpl; try done.
  destruct (ascii_dec c c); [apply IH|done].
Qed.

Lemma str_take_length_min k s :
  String.length (str_take k s) = (k `min` String.length s)%nat.
Proof.
  revert s. induction k as [|k IH]; intros [|c s]; simpl; try done.
  by rewrite IH.
Qed.

Lemma str_take_all k s : (String.length s ≤ k)%nat → str_take k s = s.
Proof.
  revert s. induction k as [|k IH]; intros [|c s]; simpl; try done; try lia.
  intros Hl. rewrite IH; [done|lia].
Qed.

Arguments str_take : simpl never.

(** ** Link resolver *)

Section LinkResolver.
Context `{env : Environment}.

Lemma link_not_found_run resp w :
  link_not_found resp w =
  (Raises LINK_NOT_FOUND,
   mkWorld (fs w) (open_files w) (next_fd w)
           ((stdout w
             ++ [("Could not find <a> tag with title=" +:+ dquote
                  +:+ EXPECTED_TITLE +:+ dquote
                  +:+ ". Dumping a snippet of HTML:")%string])
            ++ [str_take 2000 (text resp)])
           (requests_sent w) (pbar w)).
Proof. reflexivity. Qed.

(** The page was fetched and its status let through: what remains is the
    search for the link. *)
Lemma get_bulk_xml_url_fetched resp w :
  http_get DOWNLOAD_PAGE_URL = Returns resp →
  ¬ (400 ≤ status_code resp < 600) →
  get_bulk_xml_url w =
  match find (html_parser (text resp)) "a" "title" EXPECTED_TITLE with
  | None => link_not_found resp (fetched w)
  | Some link =>
      match tag_get link "href" with
      | None => link_not_found resp (fetched w)
      | Some href =>
          if bool_decide (href = EmptyString) then link_not_found resp (fetched w)
          else
            let url := if String.prefix "http" href then href
                       else (ORIGIN +:+ href)%string in
            (do print ("Found bulk XML ZIP URL: " +:+ url) in ret url) (fetched w)
      end
  end.
Proof.
  intros Hget Hok. unfold get_bulk_xml_url, bind at 1 2. simpl.
  unfold requests_get. rewrite Hget. unfold bind at 1.
  unfold raise_for_status. rewrite bool_decide_eq_false_2 by done.
  unfold ret at 1. fold (fetched w).
  destruct (find _ _ _ _) as [link|]; [|done].
  destruct (tag_get link "href") as [href|]; [|done].
  by case_bool_decide.
Qed.

(** [find] returns nothing exactly when no element of the document is a tag
    of that name with that attribute value. *)
Lemma find_None soup name attr value :
  find soup name attr value = None ↔
  ∀ attrs contents, Tag name attrs contents ∈ soup_elements soup →
                    attrs !! attr ≠ Some value.
Proof.
  unfold find. rewrite fmap_None, list_find_None, Forall_forall. split.
  - intros Hall attrs contents Hin Hattr. apply (Hall _ Hin). simpl.
    by rewrite !bool_decide_eq_true_2.
  - intros Hnone [s|name' attrs contents] Hin; simpl; [done|].
    intros [Hn Ha]%andb_true_iff. apply bool_decide_eq_true in Hn as ->.
    apply bool_decide_eq_true in Ha. by eapply Hnone.
Qed.

(** What [find] returns is an element of the document that passes the test,
    and the first one. *)
Lemma find_Some soup name attr value link :
  find soup name attr value = Some link →
  ∃ i attrs contents,
    link = Tag name attrs contents ∧ attrs !! attr = Some value
    ∧ soup_elements soup !! i = Some link
    ∧ ∀ j e, (j < i)%nat → soup_elements soup !! j = Some e →
             matches name attr value e = false.
Proof.
  unfold find. intros ([i e] & (Hi & Hm & Hfirst)%list_find_Some & ->)%fmap_Some.
  simpl. destruct e as [s|name' attrs contents]; [done|]. simpl in Hm.
  apply andb_true_iff in Hm as [Hn Ha].
  apply bool_decide_eq_true in Hn as ->. apply bool_decide_eq_true in Ha.
  exists i, attrs, contents. repeat split; [done..|].
  intros j e Hj He. specialize (Hfirst j e He Hj). by destruct (matches _ _ _ e).
Qed.

Lemma link_not_found_fails resp w :
  fails_link_not_found resp w (link_not_found resp (fetched w)).
Proof.
  rewrite link_not_found_run. eexists _, _. split; [reflexivity|].
  cbn [snd fst stdout fs requests_sent fetched].
  rewrite <- !app_assoc. split; [reflexivity|]. split; [reflexivity|].
  split; [apply str_take_length_min|]. split; [apply str_take_prefix|done].
Qed.

(** C3. When the page was fetched and no anchor of the parsed body has the
    title [All USC Titles in XML], or the anchor found has no [href], the
    resolver raises the link-not-found error ([RuntimeError] with the fixed
    message) after printing the first 2000 characters of the body, or the
    whole body when it is shorter. *)
Theorem get_bulk_xml_url_link_missing (resp : Response) (w : World) :
  http_get DOWNLOAD_PAGE_URL = Returns resp →
  ¬ (400 ≤ status_code resp < 600) →
  (∀ attrs contents,
      Tag "a" attrs contents ∈ soup_elements (html_parser (text resp)) →
      attrs !! "title"%string ≠ Some "All USC Titles in XML"%string)
  ∨ (∃ link, find (html_parser (text resp)) "a" "title" "All USC Titles in XML"
             = Some link ∧ tag_get link "href" = None) →
  fails_link_not_found resp w (get_bulk_xml_url w).
Proof.
  intros Hget Hok Hmissing. rewrite (get_bulk_xml_url_fetched resp) by done.
  destruct Hmissing as [Hnone|(link & Hfind & Hhref)].
  - apply find_None in Hnone. unfold EXPECTED_TITLE. rewrite Hnone.
    apply link_not_found_fails.
  - unfold EXPECTED_TITLE. rewrite Hfind, Hhref. apply link_not_found_fails.
Qed.

(** C10. When the anchor found has an [href] that is the empty string, the
    resolver fails exactly as for a missing [href]: it raises the
    link-not-found error after the same output, and does not return the
    origin as a URL. *)
Theorem get_bulk_xml_url_empty_href (resp : Response) (w : World) (link : PageElement) :
  http_get DOWNLOAD_PAGE_URL = Returns resp →
  ¬ (400 ≤ status_code resp < 600) →
  find (html_parser (text resp)) "a" "title" "All USC Titles in XML" = Some link →
  tag_get link "href" = Some EmptyString →
  fails_link_not_found resp w (get_bulk_xml_url w)
  ∧ fst (get_bulk_xml_url w) ≠ Returns "https://uscode.house.gov"%string.
Proof.
  intros Hget Hok Hfind Hhref. rewrite (get_bulk_xml_url_fetched resp) by done.
  unfold EXPECTED_TITLE. rewrite Hfind, Hhref. simpl. split; [|done].
  apply link_not_found_fails.
Qed.

(** C1, amended. For the anchor found with the expected title, when its
    [href] is a non-empty string: if the [href] begins with [http] the
    resolver returns it unmodified, and otherwise it returns
    [https://uscode.house.gov] followed by the [href]. *)
Theorem get_bulk_xml_url_resolves (resp : Response) (w : World)
    (link : PageElement) (href : string) :
  http_get DOWNLOAD_PAGE_URL = Returns resp →
  ¬ (400 ≤ status_code resp < 600) →
  find (html_parser (text resp)) "a" "title" "All USC Titles in XML" = Some link →
  tag_get link "href" = Some href →
  href ≠ EmptyString →
  fst (get_bulk_xml_url w) =
  Returns (if String.prefix "http" href then href
           else ("https://uscode.house.gov" +:+ href)%string).
Proof.
  intros Hget Hok Hfind Hhref Hne. rewrite (get_bulk_xml_url_fetched resp) by done.
  unfold EXPECTED_TITLE. rewrite Hfind, Hhref.
  by rewrite bool_decide_eq_false_2.
Qed.

End LinkResolver.

Lemma get_bulk_xml_url_link_missing_witness :
  fails_link_not_found (page_response 200) empty_world
    (@get_bulk_xml_url (href_env None) empty_world).
Proof.
  apply (@get_bulk_xml_url_link_missing (href_env None) (page_response 200) empty_world).
  - reflexivity.
  - simpl. lia.
  - right. exists (anchor None). split; vm_compute; reflexivity.
Defined.

Lemma get_bulk_xml_url_empty_href_witness :
  fails_link_not_found (page_response 200) empty_world
    (@get_bulk_xml_url (href_env (Some EmptyString)) empty_world)
  ∧ fst (@get_bulk_xml_url (href_env (Some EmptyString)) empty_world)
    ≠ Returns "https://uscode.house.gov"%string.
Proof.
  apply (@get_bulk_xml_url_empty_href (href_env (Some EmptyString))
           (page_response 200) empty_world (anchor (Some EmptyString))).
  - reflexivity.
  - simpl. lia.
  - vm_compute. reflexivity.
  - vm_compute. reflexivity.
Defined.

Lemma get_bulk_xml_url_resolves_witness :
  fst (@get_bulk_xml_url happy_env empty_world)
  = Returns "https://uscode.house.gov/download/usc.zip"%string
  ∧ fst (@get_bulk_xml_url (href_env (Some "http://mirror.example/usc.zip"%string))
           empty_world)
    = Returns "http://mirror.example/usc.zip"%string.
Proof.
  split.
  - apply (@get_bulk_xml_url_resolves happy_env (page_response 200) empty_world
             (anchor (Some "/download/usc.zip"%string)) "/download/usc.zip").
    + reflexivity.
    + simpl. lia.
    + vm_compute. reflexivity.
    + vm_compute. reflexivity.
    + discriminate.
  - apply (@get_bulk_xml_url_resolves
             (href_env (Some "http://mirror.example/usc.zip"%string))
             (page_response 200) empty_world
             (anchor (Some "http://mirror.example/usc.zip"%string))
             "http://mirror.example/usc.zip").
    + reflexivity.
    + simpl. lia.
    + vm_compute. reflexivity.
    + vm_compute. reflexivity.
    + discriminate.
Defined.

(** C1 as stated, for every anchor found, fails on an anchor whose [href]
    is the empty string: the claim asks for the origin, the resolver
    raises. *)
Lemma get_bulk_xml_url_any_href_counterexample :
  ¬ (∀ (env : Environment) (resp : Response) (w : World)
       (link : PageElement) (href : string),
       http_get DOWNLOAD_PAGE_URL = Returns resp →
       ¬ (400 ≤ status_code resp < 600) →
       find (html_parser (text resp)) "a" "title" "All USC Titles in XML" = Some link →
       tag_get link "href" = Some href →
       fst (get_bulk_xml_url w) =
       Returns (if String.prefix "http" href then href
                else ("https://uscode.house.gov" +:+ href)%string)).
Proof.
  intros Hclaim.
  specialize (Hclaim (href_env (Some EmptyString)) (page_response 200) empty_world
                (anchor (Some EmptyString)) EmptyString).
  assert (Hraises : fst (@get_bulk_xml_url (href_env (Some EmptyString)) empty_world)
                    = Raises LINK_NOT_FOUND) by (vm_compute; reflexivity).
  rewrite Hraises in Hclaim. discriminate Hclaim.
  - reflexivity.
  - simpl. lia.
  - vm_compute. reflexivity.
  - vm_compute. reflexivity.
Qed.

(** ** Downloader *)



Lemma save_chunk_open_files f chunk w :
  open_files (snd (save_chunk f chunk w)) = open_files w
  ∧ next_fd (snd (save_chunk f chunk w)) = next_fd w.
Proof.
  unfold save_chunk. case_bool_decide; [|done].
  unfold bind, write. case_bool_decide; [|done].
  by destruct (stat (fs w) (fname f)) as [[old|]|].
Qed.

(** Whatever the stream does, the loop opens and closes nothing. *)
Lemma for_chunks_open_files f it w :
  open_files (snd (for_chunks it (save_chunk f) w)) = open_files w
  ∧ next_fd (snd (for_chunks it (save_chunk f) w)) = next_fd w.
Proof.
  revert w. induction it as [|chunk rest IH|e]; intros w; [done| |done].
  cbn [for_chunks]. unfold bind.
  pose proof (save_chunk_open_files f chunk w) as [Hof Hfd].
  destruct (save_chunk f chunk w) as [[[]|e] w1]; simpl in Hof, Hfd.
  - rewrite <- Hof, <- Hfd. apply IH.
  - done.
Qed.

Section Downloader.
Context `{env : Environment}.

Lemma download_file_unfold url output_path :
  download_file url output_path =
  (do print ("Downloading " +:+ url +:+ " to " +:+ path_str output_path +:+ "...") in
   do with_as (requests_get url true) (λ _, ret tt) (λ r, transfer r output_path) in
   print "Download completed successfully.").
Proof. reflexivity. Qed.

Lemma content_length_cases r :
  (headers_get (headers r) "content-length" = None ∧ content_length r = ret 0)
  ∨ (∃ v k, headers_get (headers r) "content-length" = Some v
            ∧ py_int v = Some k ∧ content_length r = ret k)
  ∨ (∃ v e, headers_get (headers r) "content-length" = Some v
            ∧ py_int v = None ∧ content_length r = raise e).
Proof.
  unfold content_length.
  destruct (headers_get (headers r) "content-length") as [v|]; [|by left].
  right. destruct (py_int v) as [k|] eqn:Hint; [left|right]; eexists _, _; eauto.
Qed.

Lemma difference_fresh (X : gset nat) (x : nat) : ({[x]} ∪ X) ∖ {[x]} = X ∖ {[x]}.
Proof.
  apply set_eq. intros y.
  rewrite !elem_of_difference, elem_of_union, elem_of_singleton. tauto.
Qed.

Lemma open_wb_cases p w :
  (∃ e, open_wb p w = (Raises e, w))
  ∨ (stat (fs w) p ≠ Some Dir ∧ stat (fs w) (dirname p) = Some Dir
     ∧ open_wb p w = (Returns (mk_file (next_fd w) p),
                      alloc_fd (set_fs (insert p (File [])) w))).
Proof.
  unfold open_wb.
  destruct (stat (fs w) p) as [[old|]|] eqn:Hp; [|left; eauto|];
    (destruct (stat (fs w) (dirname p)) as [[]|]; [left; eauto| |left; eauto]).
  all: right; repeat split; congruence.
Qed.

(** The block under [with open(...) as f, tqdm(...) as pbar]. *)
Lemma progress_loop_open_files total it f w :
  open_files (snd (with_as (tqdm_new total) tqdm_close
                     (λ _, for_chunks it (save_chunk f)) w)) = open_files w.
Proof.
  unfold with_as, bind, tqdm_new, finally.
  pose proof (for_chunks_open_files f it (set_pbar (Some (mk_tqdm total 0 false)) w))
    as [Hof _].
  destruct (for_chunks it (save_chunk f) _) as [res w3]. simpl in *. done.
Qed.

(** [with open(p, 'wb') as f: body]: when the body leaves the set of open
    handles alone, the only descriptor that can have changed is the one
    given to [f], and it is closed afterwards. *)
Lemma with_open_wb_open_files {A} p (body : file_obj → M A) w :
  (∀ f w0, open_files (snd (body f w0)) = open_files w0) →
  open_files (snd (with_as (open_wb p) close body w)) = open_files w
  ∨ open_files (snd (with_as (open_wb p) close body w))
    = open_files w ∖ {[next_fd w]}.
Proof.
  intros Hbody. unfold with_as, bind.
  destruct (open_wb_cases p w) as [[e ->]|(_ & _ & ->)]; [by left|].
  unfold finally, close.
  pose proof (Hbody (mk_file (next_fd w) p)
                (alloc_fd (set_fs (insert p (File [])) w))) as Hof.
  destruct (body _ _) as [res w3]. simpl in *. rewrite Hof. right.
  apply difference_fresh.
Qed.

(** The handles open after the transfer are those open before, the
    descriptor of the destination file aside. *)
Lemma transfer_open_files r p w :
  open_files (snd (transfer r p w)) = open_files w
  ∨ open_files (snd (transfer r p w)) = open_files w ∖ {[next_fd w]}.
Proof.
  unfold transfer, bind at 1, raise_for_status.
  case_bool_decide; [by left|]. unfold ret at 1. unfold bind at 1.
  destruct (content_length_cases r)
    as [[_ ->]|[(v & k & _ & _ & ->)|(v & e & _ & _ & ->)]]; [| |by left].
  all: unfold ret at 1; apply with_open_wb_open_files;
    intros f w0; apply progress_loop_open_files.
Qed.


(** The world in which the transfer starts: the notice is printed and the
    request is sent. *)
Lemma download_file_run url output_path r w :
  http_get url = Returns r →
  ∃ w0, fs w0 = fs w ∧ open_files w0 = open_files w ∧ next_fd w0 = next_fd w
        ∧ requests_sent w0 = requests_sent w ++ [url]
        ∧ download_file url output_path w =
          match transfer r output_path w0 with
          | (Returns _, w') => print "Download completed successfully." w'
          | (Raises e, w') => (Raises e, w')
          end.
Proof.
  intros Hget.
  exists (mkWorld (fs w) (open_files w) (next_fd w)
            (stdout w ++ [("Downloading " +:+ url +:+ " to "
                           +:+ path_str output_path +:+ "...")%string])
            (requests_sent w ++ [url]) (pbar w)).
  do 4 (split; [reflexivity|]).
  rewrite download_file_unfold. unfold bind at 1. unfold print at 1.
  unfold bind at 1, with_as, bind at 1, requests_get. rewrite Hget.
  cbn [fs open_files next_fd stdout requests_sent pbar].
  unfold finally, ret. by destruct (transfer r output_path _) as [[[]|e] w'].
Qed.



(** C9. On every exit path of the downloader the destination file handle is
    closed: whatever the outcome, no handle is open afterwards that was not
    open before; and once the file has been opened, the descriptor it was
    given is not open afterwards, whether the stream ends or raises. *)
Theorem download_file_closes_file (url : string) (output_path : path) (w : World) :
  open_files (snd (download_file url output_path w)) ⊆ open_files w
  ∧ (∀ r, http_get url = Returns r →
          ¬ (400 ≤ status_code r < 600) →
          (∀ v, headers_get (headers r) "content-length" = Some v → py_int v ≠ None) →
          stat (fs w) output_path ≠ Some Dir →
          stat (fs w) (dirname output_path) = Some Dir →
          next_fd w ∉ open_files (snd (download_file url output_path w))).
Proof.
  split.
  - destruct (http_get url) as [r|e] eqn:Hget.
    + destruct (download_file_run url output_path r w Hget)
        as (w0 & _ & Hof & Hfd & _ & ->).
      pose proof (transfer_open_files r output_path w0) as Hcases.
      destruct (transfer r output_path w0) as [[[]|e] w']; simpl in *;
        rewrite Hof, Hfd in Hcases; destruct Hcases as [-> | ->];
        first [done | apply subseteq_difference_l; done].
    + rewrite download_file_unfold. unfold bind at 1, print at 1.
      unfold bind at 1, with_as, bind at 1, requests_get. by rewrite Hget.
  - intros r Hget Hok Hlen Hp Hd.
    destruct (download_file_run url output_path r w Hget)
      as (w0 & Hfs & Hof & Hfd & _ & ->).
    assert (Hclosed : open_files (snd (transfer r output_path w0))
                      = open_files w ∖ {[next_fd w]}).
    { unfold transfer, bind at 1, raise_for_status.
      rewrite bool_decide_eq_false_2 by done. unfold ret at 1, bind at 1.
      destruct (content_length_cases r)
        as [[_ ->]|[(v & k & _ & _ & ->)|(v & e & Hv & Hnone & _)]];
        [| |by apply Hlen in Hv].
      all: unfold ret at 1, with_as at 1, bind at 1.
      all: destruct (open_wb_cases output_path w0) as [[e He]|(_ & _ & ->)];
        [unfold open_wb in He; rewrite Hfs, Hd in He;
         by destruct (stat (fs w) output_path) as [[]|]|].
      all: unfold finally at 1, close.
      all: match goal with
           | |- context [with_as (tqdm_new ?k) tqdm_close ?b ?w1] =>
               pose proof (progress_loop_open_files k (iter_content r 8192)
                             (mk_file (next_fd w0) output_path) w1) as Hloop;
               destruct (with_as (tqdm_new k) tqdm_close b w1) as [res w3]
           end.
      all: simpl in *; rewrite Hloop, Hof, Hfd; apply difference_fresh. }
    destruct (transfer r output_path w0) as [[[]|e] w']; simpl in *;
      rewrite Hclosed; rewrite elem_of_difference, elem_of_singleton; tauto.
Qed.

End Downloader.



Lemma download_file_closes_file_witness :
  fst (@download_file broken_env fixture_zip_url (@ZIP_OUTPUT_PATH broken_env) prepared_world)
  = Raises ConnectionError
  ∧ next_fd prepared_world
    ∉ open_files (snd (@download_file broken_env fixture_zip_url
                         (@ZIP_OUTPUT_PATH broken_env) prepared_world)).
Proof.
  split; [vm_compute; reflexivity|].
  apply (@download_file_closes_file broken_env fixture_zip_url (@ZIP_OUTPUT_PATH broken_env)
           prepared_world)
    with (r := zip_response 200 (length_header "18") broken_stream).
  - reflexivity.
  - simpl. lia.
  - intros v Hv. vm_compute in Hv. injection Hv as <-. vm_compute. discriminate.
  - vm_compute. discriminate.
  - vm_compute. reflexivity.
Defined.

(** ** Orchestrator: failing requests *)

Section HttpErrors.
Context `{env : Environment}.

Lemma get_bulk_xml_url_http_error resp w :
  http_get DOWNLOAD_PAGE_URL = Returns resp →
  400 ≤ status_code resp < 600 →
  get_bulk_xml_url w = (Raises (HTTPError (status_code resp)), fetched w).
Proof.
  intros Hget Herr. unfold get_bulk_xml_url, bind at 1 2. simpl.
  unfold requests_get. rewrite Hget. unfold bind at 1.
  unfold raise_for_status. by rewrite bool_decide_eq_true_2.
Qed.

Lemma download_file_http_error url output_path r w :
  http_get url = Returns r →
  400 ≤ status_code r < 600 →
  download_file url output_path w =
  (Raises (HTTPError (status_code r)),
   mkWorld (fs w) (open_files w) (next_fd w)
           (stdout w ++ [("Downloading " +:+ url +:+ " to "
                          +:+ path_str output_path +:+ "...")%string])
           (requests_sent w ++ [url]) (pbar w)).
Proof.
  intros Hget Herr. rewrite download_file_unfold. unfold bind at 1, print at 1.
  unfold bind at 1, with_as, bind at 1, requests_get. rewrite Hget.
  unfold finally, transfer, bind at 1, raise_for_status.
  by rewrite bool_decide_eq_true_2.
Qed.

(** C4, amended. A response with a client or server error status (400 to
    599) on the page fetch makes the resolver raise [HTTPError], and one on
    the archive download makes the downloader raise [HTTPError]; in both
    cases [main] raises that error and ends in the very world the failing
    step left: no later step runs, nothing is retried. *)
Theorem main_aborts_on_http_error (w : World) :
  (∀ w1 resp,
      ensure_dirs w = (Returns tt, w1) →
      http_get DOWNLOAD_PAGE_URL = Returns resp →
      400 ≤ status_code resp < 600 →
      get_bulk_xml_url w1 = (Raises (HTTPError (status_code resp)), fetched w1)
      ∧ main w = (Raises (HTTPError (status_code resp)), fetched w1))
  ∧ (∀ w1 w2 url r,
      ensure_dirs w = (Returns tt, w1) →
      get_bulk_xml_url w1 = (Returns url, w2) →
      http_get url = Returns r →
      400 ≤ status_code r < 600 →
      fst (download_file url ZIP_OUTPUT_PATH w2) = Raises (HTTPError (status_code r))
      ∧ main w = download_file url ZIP_OUTPUT_PATH w2
      ∧ fs (snd (main w)) = fs w2
      ∧ open_files (snd (main w)) = open_files w2
      ∧ requests_sent (snd (main w)) = requests_sent w2 ++ [url]
      ∧ ∃ line, stdout (snd (main w)) = stdout w2 ++ [line]).
Proof.
  split.
  - intros w1 resp Hdirs Hget Herr.
    pose proof (get_bulk_xml_url_http_error resp w1 Hget Herr) as Hurl.
    split; [done|]. unfold main, bind at 1. rewrite Hdirs.
    unfold bind at 1. by rewrite Hurl.
  - intros w1 w2 url r Hdirs Hurl Hget Herr.
    pose proof (download_file_http_error url ZIP_OUTPUT_PATH r w2 Hget Herr) as Hdl.
    assert (Hmain : main w = download_file url ZIP_OUTPUT_PATH w2).
    { unfold main, bind at 1. rewrite Hdirs. unfold bind at 1. rewrite Hurl.
      unfold bind at 1. by rewrite Hdl. }
    rewrite Hmain, Hdl. simpl. repeat split; eauto.
Qed.

End HttpErrors.

Lemma main_aborts_on_http_error_witness :
  @main (page_status_env 503) empty_world
  = (Raises (HTTPError 503),
     fetched prepared_world)
  ∧ fst (@main (zip_status_env 404)
               empty_world) = Raises (HTTPError 404).
Proof.
  split.
  - destruct (@main_aborts_on_http_error
                (page_status_env 503)
                empty_world) as [Hpage _].
    apply (Hpage prepared_world (page_response 503)).
    + vm_compute. reflexivity.
    + reflexivity.
    + simpl. lia.
  - destruct (@main_aborts_on_http_error
                (zip_status_env 404)
                empty_world) as [_ Hzip].
    destruct (Hzip prepared_world
                (snd (@get_bulk_xml_url (zip_status_env 404) prepared_world))
                fixture_zip_url (zip_response 404 ∅ StopIteration))
      as (Hfails & Hmain & _).
    + vm_compute. reflexivity.
    + vm_compute. reflexivity.
    + reflexivity.
    + simpl. lia.
    + rewrite Hmain. exact Hfails.
Defined.

(** C4 as stated, for every status that is not a success (2xx), fails on
    the status 300: the page fetch does not raise, the resolver returns
    the URL and [main] goes on to request the archive. *)
Lemma main_non_success_status_counterexample :
  ¬ (∀ (env : Environment) (resp : Response) (w : World),
       http_get DOWNLOAD_PAGE_URL = Returns resp →
       ¬ (200 ≤ status_code resp < 300) →
       ∃ status, fst (get_bulk_xml_url w) = Raises (HTTPError status))
  ∧ fst (@get_bulk_xml_url
           (page_status_env 300)
           empty_world) = Returns fixture_zip_url
  ∧ requests_sent
      (snd (@main (page_status_env 300)
                  empty_world))
    = [DOWNLOAD_PAGE_URL; fixture_zip_url].
Proof.
  split; [|split; vm_compute; reflexivity].
  intros Hclaim.
  destruct (Hclaim (page_status_env 300)
              (page_response 300) empty_world) as [status Hstatus].
  - reflexivity.
  - simpl. lia.
  - vm_compute in Hstatus. discriminate Hstatus.
Qed.

(** ** Extractor: invalid archives *)

Section BadArchive.
Context `{env : Environment}.

Lemma ZipFile_init_bad file w data :
  stat (fs w) file = Some (File data) →
  zip_members data = None →
  ZipFile_init file w =
  (Raises BadZipFile,
   mkWorld (fs w) (({[next_fd w]} ∪ open_files w) ∖ {[next_fd w]}) (S (next_fd w))
           (stdout w) (requests_sent w) (pbar w)).
Proof.
  intros Hfile Hbad. unfold ZipFile_init, bind at 1, open_rb. rewrite Hfile.
  unfold bind at 1, read. cbn [fileno fname alloc_fd open_files fs].
  rewrite bool_decide_eq_true_2
    by (apply elem_of_union_l; by apply elem_of_singleton).
  by rewrite Hfile, Hbad.
Qed.



End BadArchive.


(** ** Extractor: the file system under [makedirs] *)

Lemma above_refl p : above p p.
Proof. destruct p; by left. Qed.

Lemma above_depth q p :
  above q p → (List.length (path_to_list q) ≤ List.length (path_to_list p))%nat.
Proof.
  induction p as [|h IH t]; simpl; intros [->|Hq]; simpl; try done; try lia.
  specialize (IH Hq). lia.
Qed.

Lemma not_above_child h t : ¬ above (Child h t) h.
Proof. intros Hq%above_depth. simpl in Hq. lia. Qed.

Lemma above_child q h t : above q h → above q (Child h t).
Proof. intros Hq. by right. Qed.

(** Above a visible path everything is a directory. *)
Lemma stat_above m q p nd :
  stat m p = Some nd → above q p → q ≠ p → stat m q = Some Dir.
Proof.
  revert nd. induction p as [|h IH t]; intros nd Hp [->|Hq] Hne; try done.
  pose proof (stat_dir_head _ _ _ _ Hp) as Hh.
  destruct (decide (q = h)) as [->|Hqh]; [done|]. by apply (IH Dir).
Qed.

Lemma path_to_list_foldl o l :
  path_to_list (foldl Child o l) = rev l ++ path_to_list o.
Proof.
  revert o. induction l as [|x l IH]; intros o; [done|].
  simpl. rewrite IH. simpl. by rewrite <- app_assoc.
Qed.

Lemma foldl_Child_inj o l1 l2 : foldl Child o l1 = foldl Child o l2 → l1 = l2.
Proof.
  intros Heq%(f_equal path_to_list). rewrite !path_to_list_foldl in Heq.
  apply app_inv_tail in Heq. apply (f_equal (@rev string)) in Heq.
  by rewrite !rev_involutive in Heq.
Qed.

Lemma foldl_Child_snoc o l x : foldl Child o (l ++ [x]) = Child (foldl Child o l) x.
Proof. by rewrite foldl_app. Qed.

(** What lies above a place under [o] is above [o] or on the way from [o]
    to the place. *)
Lemma above_foldl q o l :
  above q (foldl Child o l) →
  above q o ∨ ∃ k, (k ≤ List.length l)%nat ∧ q = foldl Child o (take k l).
Proof.
  induction l as [|x l IH] using rev_ind; [by left|].
  rewrite foldl_Child_snoc. intros [->|Hq].
  - right. exists (List.length (l ++ [x])). split; [done|].
    by rewrite firstn_all, foldl_Child_snoc.
  - destruct (IH Hq) as [?|(k & Hk & ->)]; [by left|]. right.
    exists k. rewrite length_app. split; [lia|]. by rewrite take_app_le.
Qed.

Lemma stat_insert_inv m p v q nd :
  fs_reachable m → stat (<[p := v]> m) q = Some nd →
  (q = p ∧ nd = v) ∨ stat m q = Some nd.
Proof.
  intros Hwf Hq. destruct q as [|h t]; [by right|].
  rewrite stat_child in Hq. destruct (stat (<[p:=v]> m) h) as [[]|]; try done.
  destruct (decide (p = Child h t)) as [->|Hne].
  - rewrite lookup_insert_eq in Hq. left. split; congruence.
  - rewrite lookup_insert_ne in Hq by done. right. by apply Hwf.
Qed.

Lemma fs_reachable_insert m p v :
  fs_reachable m → stat m p ≠ Some Dir → stat m (dirname p) = Some Dir → p ≠ Root →
  fs_reachable (<[p := v]> m).
Proof.
  intros Hwf Hp Hd Hr q nd Hq. destruct (decide (p = q)) as [<-|Hne].
  - rewrite lookup_insert_eq in Hq. injection Hq as <-. by apply stat_insert_new.
  - rewrite lookup_insert_ne in Hq by done. apply stat_insert_frame; auto.
Qed.

Lemma mkdir_new p w :
  stat (fs w) p = None → stat (fs w) (dirname p) = Some Dir →
  mkdir p w = (Returns tt, set_fs (insert p Dir) w).
Proof. intros Hp Hd. unfold mkdir. by rewrite Hp, Hd. Qed.

(** The effect of creating one directory, or one file, at a free place. *)
Lemma insert_effect w p v :
  fs_reachable (fs w) → stat (fs w) p ≠ Some Dir →
  stat (fs w) (dirname p) = Some Dir → p ≠ Root →
  fs_reachable (<[p := v]> (fs w))
  ∧ stat (<[p := v]> (fs w)) p = Some v
  ∧ (∀ q nd, q ≠ p → stat (fs w) q = Some nd → stat (<[p := v]> (fs w)) q = Some nd)
  ∧ (∀ q nd, stat (<[p := v]> (fs w)) q = Some nd →
             (q = p ∧ nd = v) ∨ stat (fs w) q = Some nd).
Proof.
  intros Hwf Hp Hd Hr. split; [by apply fs_reachable_insert|].
  split; [by apply stat_insert_new|]. split.
  - intros q nd Hq. apply stat_insert_frame; auto.
  - intros q nd. by apply stat_insert_inv.
Qed.

(** [makedirs] on a path that is not there, with no file in the way:
    it returns, the directory is there, what was visible stays, and what is
    new is a directory on the way to the path. *)
Lemma makedirs_creates p ok w :
  fs_reachable (fs w) →
  stat (fs w) p = None →
  (∀ q d, above q p → stat (fs w) q ≠ Some (File d)) →
  ∃ w', makedirs p ok w = (Returns tt, w')
        ∧ fs_reachable (fs w')
        ∧ stat (fs w') p = Some Dir
        ∧ open_files w' = open_files w ∧ next_fd w' = next_fd w
        ∧ (∀ q nd, stat (fs w) q = Some nd → stat (fs w') q = Some nd)
        ∧ (∀ q nd, stat (fs w') q = Some nd →
                   stat (fs w) q = Some nd ∨ (nd = Dir ∧ above q p)).
Proof.
  revert w. induction p as [|h IH t]; intros w Hwf Hp Hfree; [done|].
  rewrite makedirs_unfold. unfold bind at 1, path_exists.
  destruct (stat (fs w) h) as [nd|] eqn:Hh.
  - rewrite bool_decide_eq_true_2 by eauto. unfold bind at 1, ret at 1.
    assert (nd = Dir) as ->.
    { destruct nd as [d|]; [|done].
      by destruct (Hfree h d (above_child _ _ _ (above_refl _))). }
    unfold mkdir_exist_ok, try_except. rewrite mkdir_new by done.
    destruct (insert_effect w (Child h t) Dir) as (Hwf' & Hnew & Hkeep & Hinv);
      [done|congruence|done|done|].
    eexists. split; [reflexivity|]. simpl. repeat split; try done.
    + intros q nd Hq. apply Hkeep; [congruence|done].
    + intros q nd Hq. destruct (Hinv q nd Hq) as [[-> ->]|?]; [right|by left].
      split; [done|by left].
  - rewrite bool_decide_eq_false_2 by (by intros [? ?]).
    destruct (IH w) as (w1 & Hrun & Hwf1 & Hh1 & Hof1 & Hfd1 & Hkeep1 & Hinv1);
      [done|done|by eauto using above_child|].
    unfold bind at 1, try_except. rewrite Hrun.
    assert (Hp1 : stat (fs w1) (Child h t) = None).
    { destruct (stat (fs w1) (Child h t)) as [nd|] eqn:Hp1; [|done].
      destruct (Hinv1 _ _ Hp1) as [?|[_ Habove]]; [congruence|].
      by apply not_above_child in Habove. }
    unfold mkdir_exist_ok, try_except. rewrite mkdir_new by done.
    destruct (insert_effect w1 (Child h t) Dir) as (Hwf' & Hnew & Hkeep & Hinv);
      [done|congruence|done|done|].
    eexists. split; [reflexivity|]. simpl. repeat split; try done.
    + intros q nd Hq. apply Hkeep; [congruence|by apply Hkeep1].
    + intros q nd Hq. destruct (Hinv q nd Hq) as [[-> ->]|Hq1].
      * right. split; [done|by left].
      * destruct (Hinv1 q nd Hq1) as [?|[-> ?]]; [by left|right].
        split; [done|by right].
Qed.

(** ** Extractor: one member *)

(** The two statements of [_extract_member] that look after the upper
    directories. *)
Lemma upperdirs_ready p w :
  fs_reachable (fs w) →
  (∀ q d, above q p → stat (fs w) q ≠ Some (File d)) →
  ∃ w1, (∀ A (k : M A),
           (let* upper_exists := path_exists p in
            do (if negb upper_exists then makedirs p false else ret tt) in k) w
           = k w1)
        ∧ fs_reachable (fs w1)
        ∧ stat (fs w1) p = Some Dir
        ∧ open_files w1 = open_files w ∧ next_fd w1 = next_fd w
        ∧ (∀ q nd, stat (fs w) q = Some nd → stat (fs w1) q = Some nd)
        ∧ (∀ q nd, stat (fs w1) q = Some nd →
                   stat (fs w) q = Some nd ∨ (nd = Dir ∧ above q p)).
Proof.
  intros Hwf Hfree. destruct (stat (fs w) p) as [nd|] eqn:Hp.
  - exists w. split.
    { intros A k. unfold bind at 1, path_exists. rewrite Hp.
      by rewrite bool_decide_eq_true_2 by eauto. }
    split; [done|]. split; [|by eauto 10].
    destruct nd as [d|]; [|done]. by destruct (Hfree p d (above_refl p)).
  - destruct (makedirs_creates p false w) as (w1 & Hrun & Hrest); [done..|].
    exists w1. split; [|done].
    intros A k. unfold bind at 1, path_exists. rewrite Hp.
    rewrite bool_decide_eq_false_2 by (by intros [? ?]).
    unfold bind. simpl. by rewrite Hrun.
Qed.

Lemma arcname_name m m' : filename m' = filename m → arcname m' = arcname m.
Proof. unfold arcname. by intros ->. Qed.

Lemma is_dir_name_name m m' :
  filename m' = filename m → is_dir_name m' = is_dir_name m.
Proof. unfold is_dir_name. by intros ->. Qed.

Lemma is_dir_ret m : arcname m ≠ [] → is_dir m = ret (is_dir_name m).
Proof.
  unfold arcname, is_dir, is_dir_name. destruct (filename m) as [|c s].
  { intros Hne. by destruct Hne. }
  intros _. assert (∃ c', last_char (String c s) = Some c') as [c' ->]; [|done].
  revert c. induction s as [|c1 s IH]; intros c; [by eexists|]. apply (IH c1).
Qed.

Lemma open_write_close p data w :
  fs_reachable (fs w) → stat (fs w) p ≠ Some Dir →
  stat (fs w) (dirname p) = Some Dir → p ≠ Root →
  ∃ w', with_as (open_wb p) close
          (λ f, if bool_decide (data ≠ []) then write f data else ret tt) w
        = (Returns tt, w')
        ∧ fs_reachable (fs w')
        ∧ stat (fs w') p = Some (File data)
        ∧ (∀ q nd, q ≠ p → stat (fs w) q = Some nd → stat (fs w') q = Some nd)
        ∧ (∀ q nd, stat (fs w') q = Some nd →
                   (q = p ∧ nd = File data) ∨ stat (fs w) q = Some nd).
Proof.
  intros Hwf Hp Hd Hr. unfold with_as, bind.
  destruct (open_wb_cases p w) as [[e He]|(_ & _ & ->)].
  { unfold open_wb in He. rewrite Hd in He. by destruct (stat (fs w) p) as [[]|]. }
  destruct (insert_effect w p (File [])) as (Hwf1 & Hnew1 & Hkeep1 & Hinv1); [done..|].
  unfold finally, close. case_bool_decide as Hdata.
  - unfold write. cbn [fileno fname alloc_fd set_fs open_files fs].
    rewrite bool_decide_eq_true_2
      by (apply elem_of_union_l; by apply elem_of_singleton).
    rewrite Hnew1. eexists. split; [reflexivity|]. cbn [snd fs]. simpl.
    rewrite insert_insert_eq.
    destruct (insert_effect w p (File data)) as (Hwf2 & Hnew2 & Hkeep2 & Hinv2);
      [done..|].
    done.
  - subst data. eexists. split; [reflexivity|]. simpl. done.
Qed.

(** One member, extracted into a destination that has room for it. *)
Lemma extract_member_step z out_dir w m m' :
  getinfo z (filename m) = ret m' →
  filename m' = filename m →
  (is_dir_name m = false → m' = m) →
  proper_member m →
  fs_reachable (fs w) →
  stat (fs w) out_dir = Some Dir →
  fits out_dir (fs w) m →
  ∃ w', _extract_member z (filename m) out_dir w = (Returns tt, w')
        ∧ fs_reachable (fs w')
        ∧ stat (fs w') (target out_dir m) = Some (extracted m)
        ∧ (∀ q nd, stat (fs w) q = Some nd →
                   (q = target out_dir m → is_dir_name m = true) →
                   stat (fs w') q = Some nd)
        ∧ (∀ q nd, stat (fs w') q = Some nd →
                   stat (fs w) q = Some nd
                   ∨ (nd = Dir ∧ above q (dirname (target out_dir m)))
                   ∨ (q = target out_dir m ∧ nd = extracted m)).
Proof.
  intros Hget Hname Hsame [Hne Hsplit] Hwf Hout [Hway Hplace].
  unfold _extract_member, bind at 1. rewrite Hget. unfold ret at 1.
  rewrite (arcname_name m m' Hname). fold (target out_dir m).
  assert (∃ l x, arcname m = l ++ [x]) as (l & x & Hl).
  { destruct (arcname m) as [|x l _] using rev_ind; [done|eauto]. }
  assert (Htarget : target out_dir m = Child (foldl Child out_dir l) x).
  { unfold target. by rewrite Hl, foldl_Child_snoc. }
  rewrite Htarget in *. cbn [dirname].
  assert (Hfree : ∀ q d, above q (foldl Child out_dir l) →
                         stat (fs w) q ≠ Some (File d)).
  { intros q d [Hq|(k & Hk & ->)]%above_foldl.
    - destruct (decide (q = out_dir)) as [->|Hqo]; [congruence|].
      by rewrite (stat_above _ _ _ _ Hout Hq Hqo).
    - specialize (Hway k d). rewrite Hl, length_app, take_app_le in Hway by done.
      apply Hway. simpl. lia. }
  destruct (upperdirs_ready (foldl Child out_dir l) w)
    as (w1 & Hupper & Hwf1 & Hup1 & _ & _ & Hkeep1 & Hinv1); [done..|].
  rewrite Hupper.
  unfold bind at 1. rewrite is_dir_ret by (by rewrite (arcname_name m m' Hname)).
  unfold ret at 1. rewrite (is_dir_name_name m m' Hname).
  unfold extracted in *. destruct (is_dir_name m) eqn:Hdir.
  - (* a directory member *)
    unfold bind, isdir.
    destruct (stat (fs w1) (Child (foldl Child out_dir l) x)) as [nd|] eqn:Hp1.
    + assert (nd = Dir) as ->.
      { destruct (Hinv1 _ _ Hp1) as [Hold|[-> _]]; [|done].
        destruct nd as [d|]; [|done]. by destruct (Hplace d). }
      rewrite bool_decide_eq_true_2 by done. exists w1.
      split; [done|]. split; [done|]. split; [done|]. split; [by eauto|].
      intros q nd Hq. destruct (Hinv1 q nd Hq) as [?|[-> ?]]; eauto.
    + rewrite bool_decide_eq_false_2 by done. cbn [negb].
      rewrite mkdir_new by done.
      destruct (insert_effect w1 (Child (foldl Child out_dir l) x) Dir)
        as (Hwf2 & Hnew2 & Hkeep2 & Hinv2); [done|congruence|done|done|].
      eexists. split; [reflexivity|]. simpl. split; [done|]. split; [done|]. split.
      * intros q nd Hq _. apply Hkeep2; [|by apply Hkeep1].
        intros ->. apply Hkeep1 in Hq. congruence.
      * intros q nd Hq. destruct (Hinv2 q nd Hq) as [[-> ->]|Hq1]; [by eauto|].
        destruct (Hinv1 q nd Hq1) as [?|[-> ?]]; eauto.
  - (* a file member *)
    rewrite (Hsame eq_refl).
    destruct (open_write_close (Child (foldl Child out_dir l) x) (member_data m) w1)
      as (w2 & -> & Hwf2 & Hnew2 & Hkeep2 & Hinv2); [done| |done|done|].
    { intros Hp1. destruct (Hinv1 _ _ Hp1) as [?|[_ Habove]]; [done|].
      by apply not_above_child in Habove. }
    exists w2. split; [done|]. split; [done|]. split; [done|]. split.
    + intros q nd Hq Hnot. apply Hkeep2; [|by apply Hkeep1].
      intros ->. by specialize (Hnot eq_refl).
    + intros q nd Hq. destruct (Hinv2 q nd Hq) as [[-> ->]|Hq1]; [by eauto|].
      destruct (Hinv1 q nd Hq1) as [?|[-> ?]]; eauto.
Qed.

(** ** Extractor: the whole archive *)

Lemma above_dirname q p : above q (dirname p) → above q p.
Proof. destruct p; [done|]. by right. Qed.

Lemma above_foldl_self o l : above (foldl Child o l) o → l = [].
Proof.
  intros Hq%above_depth. rewrite path_to_list_foldl, length_app, length_rev in Hq.
  destruct l; [done|]. simpl in Hq. lia.
Qed.

Lemma above_target_prefix out_dir m m' :
  arcname m' ≠ [] → above (target out_dir m') (target out_dir m) →
  arcname m' `prefix_of` arcname m.
Proof.
  intros Hne [Hq|(k & _ & Hq)]%above_foldl.
  - by apply above_foldl_self in Hq.
  - apply foldl_Child_inj in Hq. rewrite Hq. apply prefix_take.
Qed.

Lemma getinfo_member z i m :
  clash_free (filelist z) → filelist z !! i = Some m →
  ∃ m', getinfo z (filename m) = ret m'
        ∧ filename m' = filename m
        ∧ (is_dir_name m = false → m' = m).
Proof.
  intros Hclash Hi. unfold getinfo.
  assert (Hin : m ∈ filter (λ m', filename m' = filename m) (filelist z)).
  { apply list_elem_of_filter. split; [done|]. apply list_elem_of_lookup. eauto. }
  destruct (last (filter _ (filelist z))) as [m'|] eqn:Hlast.
  - exists m'. split; [done|].
    apply last_Some_elem_of, list_elem_of_filter in Hlast as [Hname Hm'].
    split; [done|]. intros Hfile.
    apply list_elem_of_lookup in Hm' as [j Hj].
    destruct (decide (i = j)) as [->|Hij]; [congruence|].
    destruct (Hclash i j m m' Hi Hj Hij Hfile).
    by rewrite (arcname_name m m' Hname).
  - apply last_None in Hlast. rewrite Hlast in Hin. by apply not_elem_of_nil in Hin.
Qed.

(** Room for a member is not taken by the extraction of another one. *)
Lemma fits_after_step out_dir m m' (fs0 fs1 : gmap path inode) :
  arcname m' ≠ [] →
  (is_dir_name m = false → ¬ arcname m `prefix_of` arcname m') →
  (is_dir_name m' = false → ¬ arcname m' `prefix_of` arcname m) →
  (∀ q nd, stat fs1 q = Some nd →
           stat fs0 q = Some nd
           ∨ (nd = Dir ∧ above q (dirname (target out_dir m)))
           ∨ (q = target out_dir m ∧ nd = extracted m)) →
  fits out_dir fs0 m' → fits out_dir fs1 m'.
Proof.
  intros Hne Hm Hm' Hinv [Hway Hplace]. split.
  - intros k d Hk Hq. destruct (Hinv _ _ Hq) as [Hold|[[? _]|[Heq Hnd]]].
    + by apply (Hway k d).
    + done.
    + unfold extracted in Hnd. destruct (is_dir_name m); [done|].
      apply foldl_Child_inj in Heq. apply Hm; [done|].
      rewrite <- Heq. apply prefix_take.
  - destruct (is_dir_name m') eqn:Hdir'.
    + intros d Hq. destruct (Hinv _ _ Hq) as [Hold|[[? _]|[Heq Hnd]]].
      * by apply (Hplace d).
      * done.
      * unfold extracted in Hnd. destruct (is_dir_name m); [done|].
        apply foldl_Child_inj in Heq. apply Hm; [done|]. by rewrite Heq.
    + intros Hq. destruct (Hinv _ _ Hq) as [Hold|[[_ Habove]|[Heq Hnd]]].
      * done.
      * apply Hm'; [done|]. apply (above_target_prefix out_dir); [done|].
        by apply above_dirname.
      * apply foldl_Child_inj in Heq. apply Hm'; [done|]. by rewrite Heq.
Qed.

Lemma extract_loop z out_dir :
  Forall proper_member (filelist z) → clash_free (filelist z) →
  ∀ rest done w,
    filelist z = done ++ rest →
    fs_reachable (fs w) →
    stat (fs w) out_dir = Some Dir →
    (∀ m, m ∈ rest → fits out_dir (fs w) m) →
    ∃ w', for_each (filename <$> rest)
            (λ name, _extract_member z name out_dir) w = (Returns tt, w')
          ∧ (∀ m, m ∈ rest →
                  stat (fs w') (target out_dir m) = Some (extracted m))
          ∧ (∀ q nd, stat (fs w) q = Some nd →
                     (∀ m, m ∈ rest → is_dir_name m = false →
                           q ≠ target out_dir m) →
                     stat (fs w') q = Some nd).
Proof.
  intros Hproper Hclash.
  induction rest as [|m rest IH]; intros done w Hlist Hwf Hout Hfits.
  { exists w. split; [done|]. split; [|done]. by intros m Hm%not_elem_of_nil. }
  assert (Hi : filelist z !! List.length done = Some m).
  { rewrite Hlist. by apply list_lookup_middle. }
  assert (Hrest : ∀ m', m' ∈ rest →
            ∃ j, j ≠ List.length done ∧ filelist z !! j = Some m').
  { intros m' [j Hj]%list_elem_of_lookup. exists (List.length done + S j)%nat.
    split; [lia|]. rewrite Hlist, lookup_app_r by lia.
    by replace (List.length done + S j - List.length done)%nat with (S j) by lia. }
  assert (Hpm : ∀ m', m' ∈ m :: rest → proper_member m').
  { intros m' Hm'. rewrite Forall_forall in Hproper. apply Hproper.
    rewrite Hlist. apply elem_of_app. by right. }
  destruct (getinfo_member z _ m Hclash Hi) as (m0 & Hget & Hname & Hsame).
  destruct (extract_member_step z out_dir w m m0)
    as (w1 & Hrun & Hwf1 & Hnew1 & Hkeep1 & Hinv1); try done.
  { apply Hpm. by left. }
  { apply Hfits. by left. }
  destruct (IH (done ++ [m]) w1) as (w' & Hloop & Hall & Hkeep).
  { by rewrite <- app_assoc. }
  { done. }
  { apply Hkeep1; [done|]. intros Heq. apply (f_equal (λ p, List.length (path_to_list p))) in Heq.
    unfold target in Heq. rewrite path_to_list_foldl, length_app, length_rev in Heq.
    destruct (Hpm m) as [Hne _]; [by left|]. destruct (arcname m); [done|].
    simpl in Heq. lia. }
  { intros m' Hm'. destruct (Hrest m' Hm') as (j & Hj & Hjm).
    apply (fits_after_step out_dir m m' (fs w)); try done.
    - apply Hpm. by right.
    - intros Hfile. by apply (Hclash _ _ _ _ Hi Hjm).
    - intros Hfile. apply (Hclash _ _ _ _ Hjm Hi); [done|done].
    - apply Hfits. by right. }
  exists w'. split.
  { cbn [fmap list_fmap for_each]. unfold bind. by rewrite Hrun. }
  split.
  - intros m' [->|Hm']%elem_of_cons; [|by apply Hall].
    apply Hkeep; [done|]. intros m' Hm' Hfile Heq.
    destruct (Hrest m' Hm') as (j & Hj & Hjm).
    apply foldl_Child_inj in Heq. apply (Hclash _ _ _ _ Hjm Hi); [done|done|].
    by rewrite Heq.
  - intros q nd Hq Hother. apply Hkeep.
    + apply Hkeep1; [done|]. intros ->.
      destruct (is_dir_name m) eqn:Hdir; [done|]. destruct (Hother m); by try left.
    + intros m' Hm'. apply Hother. by right.
Qed.

Section Extractor.
Context `{env : Environment}.

Lemma ZipFile_init_good file w data members :
  stat (fs w) file = Some (File data) →
  zip_members data = Some members →
  ZipFile_init file w = (Returns (mk_zip (mk_file (next_fd w) file) members), alloc_fd w).
Proof.
  intros Hfile Hgood. unfold ZipFile_init, bind at 1, open_rb. rewrite Hfile.
  unfold bind at 1, read. cbn [fileno fname alloc_fd open_files fs].
  rewrite bool_decide_eq_true_2
    by (apply elem_of_union_l; by apply elem_of_singleton).
  by rewrite Hfile, Hgood.
Qed.

Lemma unzip_to_xml_dir_run zip_path out_dir w data members :
  fs_reachable (fs w) →
  stat (fs w) zip_path = Some (File data) →
  zip_members data = Some members →
  well_formed_archive members →
  stat (fs w) out_dir = Some Dir →
  (∀ m, m ∈ members → fits out_dir (fs w) m) →
  ∃ w', unzip_to_xml_dir zip_path out_dir w = (Returns tt, w')
        ∧ (∀ m, m ∈ members →
                stat (fs w') (target out_dir m) = Some (extracted m))
        ∧ (∀ q nd, stat (fs w) q = Some nd →
                   (∀ m, m ∈ members → is_dir_name m = false →
                         q ≠ target out_dir m) →
                   stat (fs w') q = Some nd).
Proof.
  intros Hwf Hfile Hgood [Hproper Hclash] Hout Hfits.
  unfold unzip_to_xml_dir, bind at 1, print at 1.
  set (w0 := mkWorld (fs w) (open_files w) (next_fd w) (stdout w ++ [_])
                     (requests_sent w) (pbar w)).
  unfold bind at 1, with_as, bind at 1.
  rewrite (ZipFile_init_good zip_path w0 data members) by done.
  unfold finally, extractall, namelist. cbn [filelist fp].
  destruct (extract_loop (mk_zip (mk_file (next_fd w0) zip_path) members) out_dir
              Hproper Hclash members [] (alloc_fd w0))
    as (w' & Hloop & Hall & Hkeep); [done..|].
  rewrite Hloop. eexists. split; [reflexivity|]. simpl. split; [done|].
  intros q nd Hq Hother. by apply Hkeep.
Qed.

(** C5. For a well-formed archive (member names are relative paths in
    normal form, and no file member sits at or above the place of another
    member) and a destination directory that has room for its members, the
    extractor returns and every member is under the destination directory
    at the relative path given by its name: a file member with the bytes of
    the member, a directory member as a directory. What was there before
    and is not the place of a file member is still there, the archive
    included. *)
Theorem unzip_to_xml_dir_extracts_every_entry (zip_path out_dir : path)
    (w : World) (data : bytes) (members : list ZipInfo) :
  fs_reachable (fs w) →
  stat (fs w) zip_path = Some (File data) →
  zip_members data = Some members →
  well_formed_archive members →
  stat (fs w) out_dir = Some Dir →
  (∀ m, m ∈ members → fits out_dir (fs w) m) →
  (∀ m, m ∈ members → target out_dir m ≠ zip_path) →
  fst (unzip_to_xml_dir zip_path out_dir w) = Returns tt
  ∧ (∀ m, m ∈ members → is_dir_name m = false →
          stat (fs (snd (unzip_to_xml_dir zip_path out_dir w)))
               (foldl Child out_dir (split_on "/" (filename m)))
          = Some (File (member_data m)))
  ∧ (∀ m, m ∈ members → is_dir_name m = true →
          stat (fs (snd (unzip_to_xml_dir zip_path out_dir w)))
               (foldl Child out_dir (arcname m))
          = Some Dir)
  ∧ (∀ q nd, stat (fs w) q = Some nd →
             (∀ m, m ∈ members → is_dir_name m = false → q ≠ target out_dir m) →
             stat (fs (snd (unzip_to_xml_dir zip_path out_dir w))) q = Some nd)
  ∧ stat (fs (snd (unzip_to_xml_dir zip_path out_dir w))) zip_path = Some (File data).
Proof.
  intros Hwf Hfile Hgood Hwell Hout Hfits Hzip.
  destruct (unzip_to_xml_dir_run zip_path out_dir w data members)
    as (w' & -> & Hall & Hkeep); [done..|].
  destruct Hwell as [Hproper _]. cbn [fst snd].
  split; [done|]. split; [|split; [|split; [done|]]].
  - intros m Hm Hfile'. rewrite Forall_forall in Hproper.
    destruct (Hproper m Hm) as [_ Hsplit]. rewrite <- Hsplit by done.
    specialize (Hall m Hm). unfold extracted in Hall. by rewrite Hfile' in Hall.
  - intros m Hm Hdir. specialize (Hall m Hm). unfold extracted in Hall.
    by rewrite Hdir in Hall.
  - apply Hkeep; [done|]. intros m Hm _ Heq. by apply (Hzip m Hm).
Qed.

End Extractor.

Lemma fixture_members_well_formed : well_formed_archive fixture_members.
Proof.
  split.
  - repeat constructor; try done; vm_compute; discriminate.
  - intros i j m m' Hi Hj Hij Hfile [k Hk].
    destruct i as [|[|i]], j as [|[|j]]; simplify_eq/=; vm_compute in Hk; discriminate.
Qed.

Lemma unzip_to_xml_dir_extracts_every_entry_witness :
  fst (@unzip_to_xml_dir happy_env (@ZIP_OUTPUT_PATH happy_env) (@XML_DIR happy_env)
         downloaded_world) = Returns tt
  ∧ stat (fs (snd (@unzip_to_xml_dir happy_env (@ZIP_OUTPUT_PATH happy_env)
                     (@XML_DIR happy_env) downloaded_world)))
         (Child (Child (@XML_DIR happy_env) "sub") "b.txt")
    = Some (File (bytes_of "beta")).
Proof.
  destruct (@unzip_to_xml_dir_extracts_every_entry happy_env
              (@ZIP_OUTPUT_PATH happy_env) (@XML_DIR happy_env) downloaded_world
              fixture_archive fixture_members) as (Hret & Hfiles & _).
  - apply (bool_decide_unpack
             (map_Forall (λ p nd, stat (fs downloaded_world) p = Some nd)
                         (fs downloaded_world))).
    vm_compute. exact I.
  - vm_compute. reflexivity.
  - reflexivity.
  - exact fixture_members_well_formed.
  - vm_compute. reflexivity.
  - intros m Hm. unfold fixture_members in Hm.
    rewrite !elem_of_cons in Hm. destruct Hm as [->|[->|Hm]].
    + split; [intros [|k] d Hk; [vm_compute; discriminate|simpl in Hk; lia]|].
      vm_compute. discriminate.
    + split; [intros [|[|k]] d Hk; [vm_compute; discriminate..|simpl in Hk; lia]|].
      vm_compute. discriminate.
    + by apply not_elem_of_nil in Hm.
  - intros m Hm. unfold fixture_members in Hm.
    rewrite !elem_of_cons in Hm. destruct Hm as [->|[->|Hm]].
    + vm_compute. discriminate.
    + vm_compute. discriminate.
    + by apply not_elem_of_nil in Hm.
  - split; [exact Hret|].
    apply (Hfiles (mk_zipinfo "sub/b.txt" (bytes_of "beta"))).
    + unfold fixture_members. rewrite !elem_of_cons. auto.
    + reflexivity.
Defined.

(** ** The script on the fixtures *)

Example split_on_slash :
  split_on "/" "sub/b.txt" = ["sub"; "b.txt"]%string
  ∧ split_on "/" "/a//" = [EmptyString; "a"; EmptyString; EmptyString]%string.
Proof. split; reflexivity. Qed.

Example py_int_literals :
  py_int "1024" = Some 1024 ∧ py_int " -1_000 " = Some (-1000)
  ∧ py_int "12a" = None ∧ py_int "1__0" = None ∧ py_int EmptyString = None.
Proof. repeat split; reflexivity. Qed.

Example headers_get_any_case :
  headers_get (mk_headers (length_header "18")) "Content-Length" = Some "18"%string.
Proof. reflexivity. Qed.

Example arcname_sanitises :
  arcname (mk_zipinfo "/../a/./b.txt" []) = ["a"; "b.txt"]%string.
Proof. vm_compute. reflexivity. Qed.

Example fixture_dirs :
  @RAW_DIR happy_env = Child (Child (Child (Child Root "srv") "lexica") "data") "raw"
  ∧ @ZIP_OUTPUT_PATH happy_env = Child (@RAW_DIR happy_env) "usc.zip".
Proof. split; vm_compute; reflexivity. Qed.

(** The scenario: a page with a relative link, a small valid archive, an
    empty file system. The run returns, both members are under the XML
    directory, and every handle is closed. *)
Example main_scenario :
  fst (@main happy_env empty_world) = Returns tt
  ∧ stat (fs (snd (@main happy_env empty_world)))
         (Child (@XML_DIR happy_env) "a.txt") = Some (File (bytes_of "alpha"))
  ∧ stat (fs (snd (@main happy_env empty_world)))
         (Child (Child (@XML_DIR happy_env) "sub") "b.txt")
    = Some (File (bytes_of "beta"))
  ∧ open_files (snd (@main happy_env empty_world)) = ∅
  ∧ last (stdout (snd (@main happy_env empty_world)))
    = Some "USC XML download and extraction complete."%string.
Proof. repeat split; vm_compute; reflexivity. Qed.

(** A regular file at the place of a target directory is a file-system
    failure of the first call already. *)
Example ensure_dirs_file_in_the_way :
  fst (@ensure_dirs happy_env blocked_world) = Raises FileExistsError.
Proof. vm_compute. reflexivity. Qed.

(** A transfer that breaks leaves the part that arrived in the file. *)
Example broken_transfer_leaves_part :
  stat (fs (snd (@download_file broken_env fixture_zip_url
                   (@ZIP_OUTPUT_PATH broken_env) prepared_world)))
       (@ZIP_OUTPUT_PATH broken_env) = Some (File (bytes_of "PK:a.txt,")).
Proof. vm_compute. reflexivity. Qed.

(** * Further properties *)

(** ** What a step leaves alone *)

Section Respects.
Context (R : World → World → Prop) `{!Reflexive R} `{!Transitive R}.

Lemma respects_ret {A} (a : A) : respects R (ret a).
Proof. intros w. simpl. reflexivity. Qed.

Lemma respects_raise {A} e : respects R (@raise A e).
Proof. intros w. simpl. reflexivity. Qed.

Lemma respects_bind {A B} (c : M A) (k : A → M B) :
  respects R c → (∀ a, respects R (k a)) → respects R (bind c k).
Proof.
  intros Hc Hk w. unfold bind. specialize (Hc w).
  destruct (c w) as [[a|e] w1]; simpl in *; [|done].
  etrans; [done|apply Hk].
Qed.

Lemma respects_try_except {A} (c : M A) handled h :
  respects R c → (∀ e, respects R (h e)) → respects R (try_except c handled h).
Proof.
  intros Hc Hh w. unfold try_except. specialize (Hc w).
  destruct (c w) as [[a|e] w1]; simpl in *; [done|].
  destruct (handled e); [|done]. etrans; [done|apply Hh].
Qed.

Lemma respects_finally {A} (c : M A) cleanup :
  respects R c → respects R cleanup → respects R (finally c cleanup).
Proof.
  intros Hc Hcl w. unfold finally. specialize (Hc w).
  destruct (c w) as [r w1]; simpl in *. etrans; [done|apply Hcl].
Qed.

Lemma respects_with_as {X A} (enter : M X) exit (body : X → M A) :
  respects R enter → (∀ x, respects R (exit x)) → (∀ x, respects R (body x)) →
  respects R (with_as enter exit body).
Proof.
  intros He Hx Hb. apply respects_bind; [done|].
  intros x. by apply respects_finally.
Qed.

Lemma respects_for_each {A} (l : list A) body :
  (∀ x, respects R (body x)) → respects R (for_each l body).
Proof.
  intros Hb. induction l as [|x l IH]; [apply respects_ret|].
  simpl. by apply respects_bind.
Qed.

Lemma respects_for_chunks it body :
  (∀ c, respects R (body c)) → respects R (for_chunks it body).
Proof.
  intros Hb. induction it as [|c rest IH|e];
    [apply respects_ret| |apply respects_raise].
  simpl. by apply respects_bind.
Qed.

End Respects.

Global Instance quiet_refl : Reflexive quiet.
Proof. by intros w. Qed.

Global Instance quiet_trans : Transitive quiet.
Proof. intros w1 w2 w3 [? ?] [? ?]. split; congruence. Qed.

Global Instance keeps_all_refl : Reflexive keeps_all.
Proof. by intros w q nd. Qed.

Global Instance keeps_all_trans : Transitive keeps_all.
Proof. intros w1 w2 w3 H1 H2 q nd Hq. by apply H2, H1. Qed.

Global Instance keeps_but_refl p : Reflexive (keeps_but p).
Proof. by intros w q nd. Qed.

Global Instance keeps_but_trans p : Transitive (keeps_but p).
Proof. intros w1 w2 w3 H1 H2 q nd Hne Hq. by apply H2, H1. Qed.

Global Instance confined_refl o : Reflexive (confined o).
Proof. intros w Hwf Ho. eauto. Qed.

Global Instance confined_trans o : Transitive (confined o).
Proof.
  intros w1 w2 w3 H1 H2 Hwf Ho.
  destruct (H1 Hwf Ho) as (Hwf2 & Ho2 & Hnew2).
  destruct (H2 Hwf2 Ho2) as (Hwf3 & Ho3 & Hnew3).
  split; [done|]. split; [done|].
  intros q nd Hq. destruct (Hnew3 q nd Hq) as [Hq2|?]; [|by right].
  by apply Hnew2.
Qed.

(** ** Steps that neither print nor send a request *)

Ltac respects_auto :=
  repeat first
    [ apply respects_ret | apply respects_raise
    | apply respects_bind; [|intros ?]
    | apply respects_try_except; [|intros ?]
    | apply respects_with_as; [|intros ?|intros ?]
    | apply respects_finally
    | apply respects_for_each; intros ?
    | apply respects_for_chunks; intros ?
    | done ].

Lemma quiet_path_exists p : respects quiet (path_exists p).
Proof. by intros w. Qed.

Lemma quiet_isdir p : respects quiet (isdir p).
Proof. by intros w. Qed.

Lemma quiet_mkdir p : respects quiet (mkdir p).
Proof.
  intros w. unfold mkdir. destruct (stat (fs w) p); [done|].
  by destruct (stat (fs w) (dirname p)) as [[]|].
Qed.

Lemma quiet_mkdir_exist_ok p ok : respects quiet (mkdir_exist_ok p ok).
Proof.
  unfold mkdir_exist_ok. apply respects_try_except; [apply _..|apply quiet_mkdir|].
  intros e. apply respects_bind; [apply _..|apply quiet_isdir|].
  intros d. destruct (negb ok || negb d); respects_auto; apply _.
Qed.

Lemma quiet_makedirs p ok : respects quiet (makedirs p ok).
Proof.
  induction p as [|h IH t]; [apply quiet_mkdir_exist_ok|].
  rewrite makedirs_unfold.
  apply respects_bind; [apply _..|apply quiet_path_exists|]. intros ex.
  apply respects_bind; [apply _..| |intros _; apply quiet_mkdir_exist_ok].
  destruct ex; [apply respects_ret; apply _|].
  apply respects_try_except; [apply _..|done|]. intros e. apply respects_ret; apply _.
Qed.

Lemma quiet_open_wb p : respects quiet (open_wb p).
Proof.
  intros w. unfold open_wb.
  destruct (stat (fs w) p) as [[]|]; by destruct (stat (fs w) (dirname p)) as [[]|].
Qed.

Lemma quiet_open_rb p : respects quiet (open_rb p).
Proof. intros w. unfold open_rb. by destruct (stat (fs w) p) as [[]|]. Qed.

Lemma quiet_write f data : respects quiet (write f data).
Proof.
  intros w. unfold write. case_bool_decide; [|done].
  by destruct (stat (fs w) (fname f)) as [[]|].
Qed.

Lemma quiet_read f : respects quiet (read f).
Proof.
  intros w. unfold read. case_bool_decide; [|done].
  by destruct (stat (fs w) (fname f)) as [[]|].
Qed.

Lemma quiet_close f : respects quiet (close f).
Proof. by intros w. Qed.

Lemma quiet_tqdm_new k : respects quiet (tqdm_new k).
Proof. by intros w. Qed.

Lemma quiet_tqdm_update k : respects quiet (tqdm_update k).
Proof. by intros w. Qed.

Lemma quiet_tqdm_close u : respects quiet (tqdm_close u).
Proof. by intros w. Qed.

Lemma quiet_raise_for_status r : respects quiet (raise_for_status r).
Proof. unfold raise_for_status. case_bool_decide; by intros w. Qed.

Lemma quiet_save_chunk f chunk : respects quiet (save_chunk f chunk).
Proof.
  unfold save_chunk. case_bool_decide; [|by intros w].
  apply respects_bind; [apply _..|apply quiet_write|].
  intros _. apply quiet_tqdm_update.
Qed.

Lemma quiet_is_dir m : respects quiet (is_dir m).
Proof. unfold is_dir. destruct (last_char (filename m)); by intros w. Qed.

Lemma quiet_getinfo z name : respects quiet (getinfo z name).
Proof. unfold getinfo. destruct (last _); by intros w. Qed.

Lemma quiet_extract_member z name out_dir :
  respects quiet (_extract_member z name out_dir).
Proof.
  unfold _extract_member.
  apply respects_bind; [apply _..|apply quiet_getinfo|]. intros member.
  apply respects_bind; [apply _..|apply quiet_path_exists|]. intros ex.
  apply respects_bind; [apply _..| |intros _].
  { destruct (negb ex); [apply quiet_makedirs|by intros w]. }
  apply respects_bind; [apply _..|apply quiet_is_dir|]. intros d.
  destruct d.
  - apply respects_bind; [apply _..|apply quiet_isdir|]. intros isd.
    destruct (negb isd); [apply quiet_mkdir|by intros w].
  - apply respects_with_as; [apply _..|apply quiet_open_wb|apply quiet_close|].
    intros f. case_bool_decide; [apply quiet_write|by intros w].
Qed.

Lemma quiet_extractall z out_dir : respects quiet (extractall z out_dir).
Proof.
  unfold extractall. apply respects_for_each; [apply _..|].
  intros name. apply quiet_extract_member.
Qed.

Section QuietScript.
Context `{env : Environment}.

Lemma quiet_ensure_dirs : respects quiet ensure_dirs.
Proof.
  unfold ensure_dirs. apply respects_bind; [apply _..|apply quiet_makedirs|].
  intros _. apply quiet_makedirs.
Qed.

Lemma quiet_content_length r : respects quiet (content_length r).
Proof.
  unfold content_length. destruct (headers_get _ _) as [v|]; [|by intros w].
  destruct (py_int v); by intros w.
Qed.

Lemma quiet_transfer r p : respects quiet (transfer r p).
Proof.
  unfold transfer.
  apply respects_bind; [apply _..|apply quiet_raise_for_status|]. intros _.
  apply respects_bind; [apply _..|apply quiet_content_length|]. intros k.
  apply respects_with_as; [apply _..|apply quiet_open_wb|apply quiet_close|].
  intros f.
  apply respects_with_as; [apply _..|apply quiet_tqdm_new|apply quiet_tqdm_close|].
  intros _. apply respects_for_chunks; [apply _..|]. apply quiet_save_chunk.
Qed.

Lemma quiet_ZipFile_init file : respects quiet (ZipFile_init file).
Proof.
  unfold ZipFile_init.
  apply respects_bind; [apply _..|apply quiet_open_rb|]. intros f.
  apply respects_bind; [apply _..|apply quiet_read|]. intros data.
  destruct (zip_members data); [by intros w|].
  apply respects_bind; [apply _..|apply quiet_close|]. by intros _ w.
Qed.

End QuietScript.

(** ** The directories of the script *)

Section Layout.
Context `{env : Environment}.

Lemma RAW_DIR_eq : RAW_DIR = Child (Child (dirname script_dir) "data") "raw".
Proof. reflexivity. Qed.

Lemma XML_DIR_eq : XML_DIR = Child (Child (dirname script_dir) "data") "xml".
Proof. reflexivity. Qed.

Lemma ZIP_OUTPUT_PATH_eq : ZIP_OUTPUT_PATH = Child RAW_DIR "usc.zip".
Proof. reflexivity. Qed.

Lemma above_split q h t : above q (Child h t) → q = Child h t ∨ above q h.
Proof. by intros [?|?]; [left|right]. Qed.

Lemma not_above_deeper q p :
  (List.length (path_to_list p) < List.length (path_to_list q))%nat → ¬ above q p.
Proof. intros Hlt Hq%above_depth. lia. Qed.

(** X1. Wherever the script lies, the raw directory and the XML directory
    are two different directories [data/raw] and [data/xml] next to each
    other beside the directory of the script, the archive is the file
    [usc.zip] in the raw directory, and neither the archive nor the raw
    directory lies in the XML directory. *)
Theorem directories_layout :
  dirname RAW_DIR = dirname XML_DIR
  ∧ dirname (dirname RAW_DIR) = dirname script_dir
  ∧ RAW_DIR ≠ XML_DIR
  ∧ dirname ZIP_OUTPUT_PATH = RAW_DIR
  ∧ ¬ above XML_DIR ZIP_OUTPUT_PATH
  ∧ ¬ above XML_DIR RAW_DIR
  ∧ ¬ above RAW_DIR XML_DIR.
Proof.
  rewrite ZIP_OUTPUT_PATH_eq, RAW_DIR_eq, XML_DIR_eq. cbn [dirname].
  split; [done|]. split; [done|]. split; [done|]. split; [done|].
  assert (Hnot : ∀ a b : string, a ≠ b →
            ¬ above (Child (Child (dirname script_dir) "data") a)
                    (Child (Child (dirname script_dir) "data") b)).
  { intros a b Hab [Heq|Hq]%above_split; [congruence|].
    revert Hq. apply not_above_deeper. simpl. lia. }
  split; [|split; by apply Hnot].
  intros [Heq|Hq]%above_split; [discriminate Heq|].
  revert Hq. by apply Hnot.
Qed.

End Layout.

(** ** Link resolver: every outcome *)

Section ResolverOutcomes.
Context `{env : Environment}.

Lemma get_bulk_xml_url_transport e w :
  http_get DOWNLOAD_PAGE_URL = Raises e →
  get_bulk_xml_url w = (Raises e, fetched w).
Proof.
  intros Hget. unfold get_bulk_xml_url, bind at 1 2. simpl.
  unfold requests_get. by rewrite Hget.
Qed.

Lemma link_not_found_world resp w :
  fst (link_not_found resp w) = Raises LINK_NOT_FOUND
  ∧ fs (snd (link_not_found resp w)) = fs w
  ∧ open_files (snd (link_not_found resp w)) = open_files w
  ∧ requests_sent (snd (link_not_found resp w)) = requests_sent w.
Proof. by rewrite link_not_found_run. Qed.

Lemma get_bulk_xml_url_world w :
  fs (snd (get_bulk_xml_url w)) = fs w
  ∧ open_files (snd (get_bulk_xml_url w)) = open_files w
  ∧ requests_sent (snd (get_bulk_xml_url w)) = requests_sent w ++ [DOWNLOAD_PAGE_URL].
Proof.
  destruct (http_get DOWNLOAD_PAGE_URL) as [resp|e] eqn:Hget.
  - destruct (decide (400 ≤ status_code resp < 600)) as [Herr|Hok].
    + by rewrite (get_bulk_xml_url_http_error resp w Hget Herr).
    + rewrite (get_bulk_xml_url_fetched resp) by done.
      pose proof (link_not_found_world resp (fetched w)) as (_ & Hfs & Hof & Hreq).
      destruct (find _ _ _ _) as [link|]; [|done].
      destruct (tag_get link "href") as [href|]; [|done].
      by case_bool_decide.
  - by rewrite (get_bulk_xml_url_transport e w Hget).
Qed.

Lemma get_bulk_xml_url_returns w url w' :
  get_bulk_xml_url w = (Returns url, w') →
  String.prefix "http" url = true
  ∧ stdout w' = stdout w ++ ["Fetching download page..."%string;
                              ("Found bulk XML ZIP URL: " +:+ url)%string].
Proof.
  destruct (http_get DOWNLOAD_PAGE_URL) as [resp|e] eqn:Hget.
  - destruct (decide (400 ≤ status_code resp < 600)) as [Herr|Hok].
    + by rewrite (get_bulk_xml_url_http_error resp w Hget Herr).
    + rewrite (get_bulk_xml_url_fetched resp) by done.
      pose proof (link_not_found_world resp (fetched w)) as [Hraises _].
      destruct (find _ _ _ _) as [link|];
        [|intros Heq; rewrite Heq in Hraises; discriminate Hraises].
      destruct (tag_get link "href") as [href|];
        [|intros Heq; rewrite Heq in Hraises; discriminate Hraises].
      case_bool_decide;
        [intros Heq; rewrite Heq in Hraises; discriminate Hraises|].
      cbn zeta. unfold bind, print, ret. intros [= <- <-]. simpl.
      split; [|by rewrite <- app_assoc].
      by destruct (String.prefix "http" href) eqn:Hpre.
  - by rewrite (get_bulk_xml_url_transport e w Hget).
Qed.

(** X2. Whenever the resolver returns a URL, the URL begins with [http],
    and the two lines printed are the notice of the fetch and the line
    that shows this same URL. *)
Theorem get_bulk_xml_url_absolute (w : World) (url : string) :
  fst (get_bulk_xml_url w) = Returns url →
  String.prefix "http" url = true
  ∧ stdout (snd (get_bulk_xml_url w))
    = stdout w ++ ["Fetching download page..."%string;
                   ("Found bulk XML ZIP URL: " +:+ url)%string].
Proof.
  intros Hret. apply (get_bulk_xml_url_returns w url).
  destruct (get_bulk_xml_url w) as [r w']. simpl in Hret. by subst r.
Qed.

(** X3. Whatever its outcome, the resolver sends exactly one request, to
    the download page, and leaves the file system and the open files as
    they were. *)
Theorem get_bulk_xml_url_one_request (w : World) :
  requests_sent (snd (get_bulk_xml_url w)) = requests_sent w ++ [DOWNLOAD_PAGE_URL]
  ∧ fs (snd (get_bulk_xml_url w)) = fs w
  ∧ open_files (snd (get_bulk_xml_url w)) = open_files w.
Proof. by destruct (get_bulk_xml_url_world w) as (? & ? & ?). Qed.

End ResolverOutcomes.

Lemma get_bulk_xml_url_absolute_witness :
  String.prefix "http" "https://uscode.house.gov/download/usc.zip" = true
  ∧ stdout (snd (@get_bulk_xml_url happy_env empty_world))
    = stdout empty_world
      ++ ["Fetching download page..."%string;
          ("Found bulk XML ZIP URL: " +:+ "https://uscode.house.gov/download/usc.zip")%string].
Proof.
  apply (@get_bulk_xml_url_absolute happy_env empty_world).
  vm_compute. reflexivity.
Defined.

(** ** Downloader: failures before and during the transfer *)

Section DownloaderOutcomes.
Context `{env : Environment}.

Lemma download_file_transport url output_path e w :
  http_get url = Raises e →
  download_file url output_path w =
  (Raises e,
   mkWorld (fs w) (open_files w) (next_fd w)
           (stdout w ++ [("Downloading " +:+ url +:+ " to "
                          +:+ path_str output_path +:+ "...")%string])
           (requests_sent w ++ [url]) (pbar w)).
Proof.
  intros Hget. rewrite download_file_unfold. unfold bind at 1, print at 1.
  unfold bind at 1, with_as, bind at 1, requests_get. by rewrite Hget.
Qed.

(** The transfer stopped before the destination was opened. *)
Lemma download_file_stopped url output_path r w e :
  http_get url = Returns r →
  (∀ w0, fs w0 = fs w → transfer r output_path w0 = (Raises e, w0)) →
  download_file url output_path w =
  (Raises e,
   mkWorld (fs w) (open_files w) (next_fd w)
           (stdout w ++ [("Downloading " +:+ url +:+ " to "
                          +:+ path_str output_path +:+ "...")%string])
           (requests_sent w ++ [url]) (pbar w)).
Proof.
  intros Hget Hstop. rewrite download_file_unfold. unfold bind at 1, print at 1.
  unfold bind at 1, with_as, bind at 1, requests_get. rewrite Hget.
  unfold finally. by rewrite Hstop.
Qed.

(** X4. A transport failure of either request is the outcome of the step
    and of [main]: when the page cannot be fetched [main] ends in the world
    the resolver left, and when the archive cannot be fetched [main] ends
    with the error right after the notice of the download, the file system
    as it was after the resolver. *)
Theorem main_aborts_on_transport_failure (w : World) :
  (∀ w1 e,
      ensure_dirs w = (Returns tt, w1) →
      http_get DOWNLOAD_PAGE_URL = Raises e →
      get_bulk_xml_url w1 = (Raises e, fetched w1)
      ∧ main w = (Raises e, fetched w1))
  ∧ (∀ w1 w2 url e,
      ensure_dirs w = (Returns tt, w1) →
      get_bulk_xml_url w1 = (Returns url, w2) →
      http_get url = Raises e →
      fst (main w) = Raises e
      ∧ main w = download_file url ZIP_OUTPUT_PATH w2
      ∧ fs (snd (main w)) = fs w2
      ∧ requests_sent (snd (main w)) = requests_sent w2 ++ [url]
      ∧ ∃ line, stdout (snd (main w)) = stdout w2 ++ [line]).
Proof.
  split.
  - intros w1 e Hdirs Hget.
    pose proof (get_bulk_xml_url_transport e w1 Hget) as Hurl.
    split; [done|]. unfold main, bind at 1. rewrite Hdirs.
    unfold bind at 1. by rewrite Hurl.
  - intros w1 w2 url e Hdirs Hurl Hget.
    pose proof (download_file_transport url ZIP_OUTPUT_PATH e w2 Hget) as Hdl.
    assert (Hmain : main w = download_file url ZIP_OUTPUT_PATH w2).
    { unfold main, bind at 1. rewrite Hdirs. unfold bind at 1. rewrite Hurl.
      unfold bind at 1. by rewrite Hdl. }
    rewrite Hmain, Hdl. simpl. repeat split; eauto.
Qed.

(** X5. A [content-length] header that is not a decimal number makes the
    downloader raise [ValueError] before the destination is opened: the
    file system, the open files and the progress bar are as they were. *)
Theorem download_file_bad_length (url : string) (output_path : path) (w : World)
    (r : Response) (v : string) :
  http_get url = Returns r →
  ¬ (400 ≤ status_code r < 600) →
  headers_get (headers r) "content-length" = Some v →
  py_int v = None →
  (∃ msg, fst (download_file url output_path w) = Raises (ValueError msg))
  ∧ fs (snd (download_file url output_path w)) = fs w
  ∧ open_files (snd (download_file url output_path w)) = open_files w
  ∧ pbar (snd (download_file url output_path w)) = pbar w.
Proof.
  intros Hget Hok Hv Hint.
  rewrite (download_file_stopped url output_path r w
             (ValueError "invalid literal for int() with base 10")); [|done|].
  - simpl. eauto.
  - intros w0 _. unfold transfer, bind at 1, raise_for_status.
    rewrite bool_decide_eq_false_2 by done. unfold ret at 1, bind at 1.
    unfold content_length. by rewrite Hv, Hint.
Qed.



End DownloaderOutcomes.

Lemma main_aborts_on_transport_failure_witness :
  fst (@main (unreachable_env false) empty_world) = Raises ConnectionError
  ∧ requests_sent (snd (@main (unreachable_env false) empty_world))
    = [DOWNLOAD_PAGE_URL]
  ∧ fst (@main (unreachable_env true) empty_world) = Raises ConnectionError.
Proof.
  destruct (@main_aborts_on_transport_failure (unreachable_env false) empty_world)
    as [Hpage _].
  destruct (Hpage prepared_world ConnectionError) as [_ Hmain];
    [vm_compute; reflexivity|reflexivity|].
  destruct (@main_aborts_on_transport_failure (unreachable_env true) empty_world)
    as [_ Hzip].
  destruct (Hzip prepared_world
              (snd (@get_bulk_xml_url (unreachable_env true) prepared_world))
              fixture_zip_url ConnectionError) as [Hraises _];
    [vm_compute; reflexivity|vm_compute; reflexivity|reflexivity|].
  rewrite Hmain. split; [reflexivity|]. split; [reflexivity|exact Hraises].
Defined.

Lemma download_file_bad_length_witness :
  (∃ msg, fst (@download_file bad_length_env fixture_zip_url
                 (@ZIP_OUTPUT_PATH bad_length_env) prepared_world)
          = Raises (ValueError msg))
  ∧ fs (snd (@download_file bad_length_env fixture_zip_url
               (@ZIP_OUTPUT_PATH bad_length_env) prepared_world))
    = fs prepared_world.
Proof.
  destruct (@download_file_bad_length bad_length_env fixture_zip_url
              (@ZIP_OUTPUT_PATH bad_length_env) prepared_world
              (zip_response 200 (length_header "18 bytes") (iter_of_list fixture_chunks))
              "18 bytes") as (Hraises & Hfs & _).
  - reflexivity.
  - simpl. lia.
  - vm_compute. reflexivity.
  - vm_compute. reflexivity.
  - split; [exact Hraises|exact Hfs].
Defined.


(** ** Downloader: a transfer that breaks, and what is left alone *)






Section DownloaderFrame.
Context `{env : Environment}.




End DownloaderFrame.



(** ** Extractor: no archive, and the handle of the archive *)

Section ExtractorOutcomes.
Context `{env : Environment}.



End ExtractorOutcomes.


(** ** Extractor: handles *)

Global Instance no_new_handle_refl : Reflexive no_new_handle.
Proof. intros w. unfold no_new_handle. done. Qed.


Global Instance no_new_handle_trans : Transitive no_new_handle.
Proof. intros w1 w2 w3 H12 H23. unfold no_new_handle in *. by etrans. Qed.

Lemma no_new_handle_same w w' : open_files w' = open_files w → no_new_handle w w'.
Proof. unfold no_new_handle. by intros ->. Qed.

Ltac same_handles := intros ?; apply no_new_handle_same; done.

Lemma handles_mkdir p : respects no_new_handle (mkdir p).
Proof.
  intros w. apply no_new_handle_same. unfold mkdir.
  destruct (stat (fs w) p); [done|]. by destruct (stat (fs w) (dirname p)) as [[]|].
Qed.

Lemma handles_mkdir_exist_ok p ok : respects no_new_handle (mkdir_exist_ok p ok).
Proof.
  unfold mkdir_exist_ok. apply respects_try_except; [apply _..|apply handles_mkdir|].
  intros e. apply respects_bind; [apply _..|same_handles|].
  intros d. destruct (negb ok || negb d); same_handles.
Qed.

Lemma handles_makedirs p ok : respects no_new_handle (makedirs p ok).
Proof.
  induction p as [|h IH t]; [apply handles_mkdir_exist_ok|].
  rewrite makedirs_unfold.
  apply respects_bind; [apply _..|same_handles|]. intros ex.
  apply respects_bind; [apply _..| |intros _; apply handles_mkdir_exist_ok].
  destruct ex; [same_handles|].
  apply respects_try_except; [apply _..|done|]. intros e; same_handles.
Qed.

Lemma handles_write f data : respects no_new_handle (write f data).
Proof.
  intros w. apply no_new_handle_same. unfold write. case_bool_decide; [|done].
  by destruct (stat (fs w) (fname f)) as [[]|].
Qed.

(** [with open(p, 'wb') as f: body] leaves no handle behind when the body
    does not. *)
Lemma handles_with_open {A} p (body : file_obj → M A) :
  (∀ f, respects no_new_handle (body f)) →
  respects no_new_handle (with_as (open_wb p) close body).
Proof.
  intros Hbody w. unfold with_as, bind.
  destruct (open_wb_cases p w) as [[e ->]|(_ & _ & ->)]; [done|].
  unfold finally, close.
  specialize (Hbody (mk_file (next_fd w) p)
                (alloc_fd (set_fs (insert p (File [])) w))).
  destruct (body _ _) as [res w3]. unfold no_new_handle in *. simpl in *.
  intros fd [Hfd Hne]%elem_of_difference.
  apply Hbody, elem_of_union in Hfd as [Hfd|Hfd]; done.
Qed.

Lemma handles_extract_member z name out_dir :
  respects no_new_handle (_extract_member z name out_dir).
Proof.
  unfold _extract_member.
  apply respects_bind; [apply _..| |intros member].
  { unfold getinfo. destruct (last _); same_handles. }
  apply respects_bind; [apply _..|same_handles|]. intros ex.
  apply respects_bind; [apply _..| |intros _].
  { destruct (negb ex); [apply handles_makedirs|same_handles]. }
  apply respects_bind; [apply _..| |intros d].
  { unfold is_dir. destruct (last_char _); same_handles. }
  destruct d.
  - apply respects_bind; [apply _..|same_handles|]. intros isd.
    destruct (negb isd); [apply handles_mkdir|same_handles].
  - apply handles_with_open. intros f.
    case_bool_decide; [apply handles_write|same_handles].
Qed.

Section ExtractorHandles.
Context `{env : Environment}.

Lemma ZipFile_init_not_opened file w :
  stat (fs w) file = None ∨ stat (fs w) file = Some Dir →
  ∃ e, ZipFile_init file w = (Raises e, w).
Proof.
  intros Hstat. unfold ZipFile_init, bind at 1, open_rb.
  destruct Hstat as [-> | ->]; eauto.
Qed.

Lemma zip_with_handles zip_path out_dir w :
  open_files (snd (with_as (ZipFile_init zip_path) (λ z, close (fp z))
                     (λ zip_ref, extractall zip_ref out_dir) w))
  ⊆ open_files w
  ∧ (∀ data, stat (fs w) zip_path = Some (File data) →
       next_fd w ∉ open_files
         (snd (with_as (ZipFile_init zip_path) (λ z, close (fp z))
                 (λ zip_ref, extractall zip_ref out_dir) w))).
Proof.
  unfold with_as, bind.
  destruct (stat (fs w) zip_path) as [[data|]|] eqn:Hfile.
  - destruct (zip_members data) as [members|] eqn:Hzip.
    + rewrite (ZipFile_init_good zip_path w data members) by done.
      unfold finally, close. cbn [fp fileno].
      pose proof (respects_for_each no_new_handle (filename <$> members)
                    (λ name, _extract_member
                               (mk_zip (mk_file (next_fd w) zip_path) members)
                               name out_dir)
                    (λ name, handles_extract_member _ name out_dir)
                    (alloc_fd w)) as Hbody.
      unfold extractall, namelist. cbn [filelist].
      destruct (for_each _ _ (alloc_fd w)) as [res w3].
      unfold no_new_handle in Hbody. simpl in *. split.
      * intros fd [Hfd Hne]%elem_of_difference.
        apply Hbody, elem_of_union in Hfd as [Hfd|Hfd]; done.
      * intros _ _ [_ Hne]%elem_of_difference. apply Hne. by apply elem_of_singleton.
    + rewrite (ZipFile_init_bad zip_path w data) by done. simpl. split.
      * intros fd [Hfd Hne]%elem_of_difference.
        apply elem_of_union in Hfd as [Hfd|Hfd]; done.
      * intros _ _ [_ Hne]%elem_of_difference. apply Hne. by apply elem_of_singleton.
  - destruct (ZipFile_init_not_opened zip_path w) as [e ->]; [by right|]. by split.
  - destruct (ZipFile_init_not_opened zip_path w) as [e ->]; [by left|]. by split.
Qed.

(** X10. Whatever its outcome (a missing or invalid archive, a member that
    cannot be written, or a complete extraction), the extractor leaves no
    handle open that was not open before; and once the archive file has
    been opened, the descriptor it was given is closed afterwards. *)
Theorem unzip_to_xml_dir_closes_files (zip_path out_dir : path) (w : World) :
  open_files (snd (unzip_to_xml_dir zip_path out_dir w)) ⊆ open_files w
  ∧ (∀ data, stat (fs w) zip_path = Some (File data) →
             next_fd w ∉ open_files (snd (unzip_to_xml_dir zip_path out_dir w))).
Proof.
  pose proof (zip_with_handles zip_path out_dir
                (mkWorld (fs w) (open_files w) (next_fd w)
                   (stdout w ++ [("Unzipping " +:+ path_str zip_path +:+ " to "
                                  +:+ path_str out_dir +:+ "...")%string])
                   (requests_sent w) (pbar w))) as Hwith.
  cbn [fs open_files next_fd] in Hwith.
  unfold unzip_to_xml_dir, bind, print.
  destruct (with_as _ _ _ _) as [[[]|e] w']; exact Hwith.
Qed.

End ExtractorHandles.

Lemma unzip_to_xml_dir_closes_files_witness :
  next_fd downloaded_world
  ∉ open_files (snd (@unzip_to_xml_dir happy_env (@ZIP_OUTPUT_PATH happy_env)
                       (@XML_DIR happy_env) downloaded_world)).
Proof.
  destruct (@unzip_to_xml_dir_closes_files happy_env (@ZIP_OUTPUT_PATH happy_env)
              (@XML_DIR happy_env) downloaded_world) as [_ Hclosed].
  apply (Hclosed fixture_archive). vm_compute. reflexivity.
Defined.

(** ** Extractor: nothing lands outside the destination *)











Section ExtractorConfined.
Context `{env : Environment}.



End ExtractorConfined.


(** ** Directory preparer: what it creates *)

Global Instance only_new_refl P : Reflexive (only_new P).
Proof. intros w Hwf. eauto. Qed.

Global Instance only_new_trans P : Transitive (only_new P).
Proof.
  intros w1 w2 w3 H1 H2 Hwf.
  destruct (H1 Hwf) as (Hwf2 & Hnew2). destruct (H2 Hwf2) as (Hwf3 & Hnew3).
  split; [done|]. intros q nd Hq.
  destruct (Hnew3 q nd Hq) as [Hq2|?]; [|by right]. by apply Hnew2.
Qed.

Lemma only_new_same_fs P w w' : fs w' = fs w → only_new P w w'.
Proof. intros Hfs Hwf. rewrite Hfs. eauto. Qed.

Lemma only_new_mono (P Q : path → inode → Prop) w w' :
  (∀ q nd, P q nd → Q q nd) → only_new P w w' → only_new Q w w'.
Proof.
  intros HPQ HP Hwf. destruct (HP Hwf) as [Hwf' Hnew]. split; [done|].
  intros q nd Hq. destruct (Hnew q nd Hq); eauto.
Qed.

Lemma only_new_insert p v w :
  stat (fs w) p ≠ Some Dir → stat (fs w) (dirname p) = Some Dir →
  only_new (λ q nd, q = p ∧ nd = v) w (set_fs (insert p v) w).
Proof.
  intros Hp Hd Hwf.
  assert (Hr : p ≠ Root) by (by intros ->).
  destruct (insert_effect w p v) as (Hwf' & _ & _ & Hinv); [done..|].
  split; [done|]. intros q nd Hq. destruct (Hinv q nd Hq); eauto.
Qed.

Lemma only_new_mkdir p :
  respects (only_new (λ q nd, nd = Dir ∧ above q p)) (mkdir p).
Proof.
  intros w. destruct (mkdir p w) as [[[]|e] w'] eqn:Hm.
  - apply mkdir_returns in Hm as (Hp & Hd & ->). simpl.
    eapply only_new_mono; [|apply only_new_insert; [congruence|done]].
    intros q nd [-> ->]. split; [done|apply above_refl].
  - apply mkdir_raises in Hm as ->. simpl. reflexivity.
Qed.

Lemma only_new_mkdir_exist_ok p ok :
  respects (only_new (λ q nd, nd = Dir ∧ above q p)) (mkdir_exist_ok p ok).
Proof.
  unfold mkdir_exist_ok.
  apply respects_try_except; [apply _..|apply only_new_mkdir|].
  intros e. apply respects_bind; [apply _..| |intros d].
  - intros w. by apply only_new_same_fs.
  - destruct (negb ok || negb d); intros w; by apply only_new_same_fs.
Qed.

(** Whatever [makedirs] creates is a directory on the way to the path. *)
Lemma only_new_makedirs p ok :
  respects (only_new (λ q nd, nd = Dir ∧ above q p)) (makedirs p ok).
Proof.
  induction p as [|h IH t]; [apply only_new_mkdir_exist_ok|].
  rewrite makedirs_unfold.
  apply respects_bind; [apply _..| |intros ex].
  { intros w. by apply only_new_same_fs. }
  apply respects_bind; [apply _..| |intros _; apply only_new_mkdir_exist_ok].
  destruct ex; [intros w; by apply only_new_same_fs|].
  apply respects_try_except; [apply _..| |intros e w; by apply only_new_same_fs].
  intros w. eapply only_new_mono; [|apply IH].
  intros q nd [-> Hq]. split; [done|by right].
Qed.

Lemma keeps_all_makedirs p ok : respects keeps_all (makedirs p ok).
Proof.
  intros w q nd Hq. destruct (makedirs p ok w) as [r w'] eqn:Hm.
  by apply (makedirs_preserves p ok w r w').
Qed.

Section EnsureDirsOutcomes.
Context `{env : Environment}.

(** X12. The directory preparer only ever adds directories: whatever its
    outcome, every file or directory that was visible is still there
    unchanged, nothing is printed and no request is sent; in a reachable
    file system whatever is new is a directory on the way to the raw or to
    the XML directory; and when it returns both directories exist. *)
Theorem ensure_dirs_only_adds_directories (w : World) :
  (∀ q nd, stat (fs w) q = Some nd → stat (fs (snd (ensure_dirs w))) q = Some nd)
  ∧ stdout (snd (ensure_dirs w)) = stdout w
  ∧ requests_sent (snd (ensure_dirs w)) = requests_sent w
  ∧ (fs_reachable (fs w) →
     ∀ q nd, stat (fs (snd (ensure_dirs w))) q = Some nd →
             stat (fs w) q = Some nd
             ∨ (nd = Dir ∧ (above q RAW_DIR ∨ above q XML_DIR)))
  ∧ (fst (ensure_dirs w) = Returns tt →
     stat (fs (snd (ensure_dirs w))) RAW_DIR = Some Dir
     ∧ stat (fs (snd (ensure_dirs w))) XML_DIR = Some Dir).
Proof.
  split; [|split; [|split; [|split]]].
  - assert (Hk : respects keeps_all ensure_dirs); [|exact (Hk w)].
    unfold ensure_dirs. apply respects_bind; [apply _..|apply keeps_all_makedirs|].
    intros _. apply keeps_all_makedirs.
  - apply (quiet_ensure_dirs w).
  - apply (quiet_ensure_dirs w).
  - assert (Hn : respects (only_new (λ q nd, nd = Dir ∧ (above q RAW_DIR ∨ above q XML_DIR)))
                   ensure_dirs).
    { unfold ensure_dirs. apply respects_bind; [apply _..| |intros _].
      - intros w0. eapply only_new_mono; [|apply only_new_makedirs].
        intros q nd [-> Hq]. split; [done|by left].
      - intros w0. eapply only_new_mono; [|apply only_new_makedirs].
        intros q nd [-> Hq]. split; [done|by right]. }
    intros Hwf. by destruct (Hn w Hwf).
  - intros Hret. apply (ensure_dirs_returns w).
    destruct (ensure_dirs w) as [r w']. simpl in Hret. by subst r.
Qed.

End EnsureDirsOutcomes.

Lemma ensure_dirs_only_adds_directories_witness :
  stat (fs (snd (@ensure_dirs happy_env empty_world))) (@RAW_DIR happy_env) = Some Dir
  ∧ stat (fs (snd (@ensure_dirs happy_env empty_world))) (@XML_DIR happy_env) = Some Dir.
Proof.
  destruct (@ensure_dirs_only_adds_directories happy_env empty_world)
    as (_ & _ & _ & _ & Hdirs).
  apply Hdirs. vm_compute. reflexivity.
Defined.

(** ** Downloader and extractor: what they report *)




Section Reports.
Context `{env : Environment}.


Lemma download_file_started url output_path r w :
  http_get url = Returns r →
  download_file url output_path w =
  match transfer r output_path
          (mkWorld (fs w) (open_files w) (next_fd w)
             (stdout w ++ [("Downloading " +:+ url +:+ " to "
                            +:+ path_str output_path +:+ "...")%string])
             (requests_sent w ++ [url]) (pbar w)) with
  | (Returns _, w') => print "Download completed successfully." w'
  | (Raises e, w') => (Raises e, w')
  end.
Proof.
  intros Hget.
  rewrite download_file_unfold. unfold bind at 1. unfold print at 1.
  unfold bind at 1, with_as, bind at 1, requests_get. rewrite Hget.
  cbn [fs open_files next_fd stdout requests_sent pbar].
  unfold finally, ret. by destruct (transfer r output_path _) as [[[]|e] w'].
Qed.

Lemma download_file_report url output_path w :
  requests_sent (snd (download_file url output_path w)) = requests_sent w ++ [url]
  ∧ (fst (download_file url output_path w) = Returns tt →
     stdout (snd (download_file url output_path w))
     = stdout w ++ [("Downloading " +:+ url +:+ " to "
                     +:+ path_str output_path +:+ "...")%string;
                    "Download completed successfully."%string]).
Proof.
  destruct (http_get url) as [r|e] eqn:Hget.
  - rewrite (download_file_started _ _ _ _ Hget).
    match goal with |- context [transfer r output_path ?w0] =>
      destruct (quiet_transfer r output_path w0) as [Hs Hr];
      destruct (transfer r output_path w0) as [[[]|e] w'] end; simpl in *.
    + split; [done|]. intros _. by rewrite Hs, <- app_assoc.
    + done.
  - by rewrite (download_file_transport _ _ _ _ Hget).
Qed.

Lemma unzip_to_xml_dir_report zip_path out_dir w :
  requests_sent (snd (unzip_to_xml_dir zip_path out_dir w)) = requests_sent w
  ∧ (fst (unzip_to_xml_dir zip_path out_dir w) = Returns tt →
     stdout (snd (unzip_to_xml_dir zip_path out_dir w))
     = stdout w ++ [("Unzipping " +:+ path_str zip_path +:+ " to "
                     +:+ path_str out_dir +:+ "...")%string;
                    "Unzip complete."%string]).
Proof.
  assert (Hq : respects quiet
                 (with_as (ZipFile_init zip_path) (λ z, close (fp z))
                    (λ zip_ref, extractall zip_ref out_dir))).
  { apply respects_with_as; [apply _..|apply quiet_ZipFile_init| |].
    - intros z. apply quiet_close.
    - intros z. apply quiet_extractall. }
  unfold unzip_to_xml_dir, bind, print.
  match goal with |- context [with_as _ _ _ ?w0] =>
    destruct (Hq w0) as [Hs Hr]; destruct (with_as _ _ _ w0) as [[[]|e] w'] end;
    simpl in *.
  - split; [done|]. intros _. by rewrite Hs, <- app_assoc.
  - done.
Qed.

(** X13. A run of the script that returns has printed exactly seven
    lines, in this order: the notice that the page is fetched, the URL
    found (which begins with [http]), the notice of the download with the
    URL and the path of the archive, the completion of the download, the
    notice of the extraction with both paths, its completion, and the
    closing line. *)
Theorem main_success_report (w : World) :
  fst (main w) = Returns tt →
  ∃ url, String.prefix "http" url = true
    ∧ stdout (snd (main w))
      = stdout w ++
        ["Fetching download page..."%string;
         ("Found bulk XML ZIP URL: " +:+ url)%string;
         ("Downloading " +:+ url +:+ " to "
          +:+ path_str ZIP_OUTPUT_PATH +:+ "...")%string;
         "Download completed successfully."%string;
         ("Unzipping " +:+ path_str ZIP_OUTPUT_PATH +:+ " to "
          +:+ path_str XML_DIR +:+ "...")%string;
         "Unzip complete."%string;
         "USC XML download and extraction complete."%string].
Proof.
  unfold main, bind.
  pose proof (quiet_ensure_dirs w) as [Hs1 _].
  destruct (ensure_dirs w) as [[[]|e1] w1]; [|done]. simpl in Hs1.
  pose proof (get_bulk_xml_url_returns w1) as Hret.
  destruct (get_bulk_xml_url w1) as [[url|e2] w2]; [|done].
  destruct (Hret url w2 eq_refl) as [Hpre Hs2].
  pose proof (download_file_report url ZIP_OUTPUT_PATH w2) as [_ Hs3].
  destruct (download_file url ZIP_OUTPUT_PATH w2) as [[[]|e3] w3]; [|done].
  pose proof (unzip_to_xml_dir_report ZIP_OUTPUT_PATH XML_DIR w3) as [_ Hs4].
  destruct (unzip_to_xml_dir ZIP_OUTPUT_PATH XML_DIR w3) as [[[]|e4] w4]; [|done].
  intros _. exists url. split; [done|]. simpl in *.
  rewrite Hs4, Hs3, Hs2, Hs1 by done. by rewrite <- !app_assoc.
Qed.


End Reports.

Lemma main_success_report_witness :
  ∃ url, String.prefix "http" url = true
    ∧ stdout (snd (@main happy_env empty_world))
      = stdout empty_world ++
        ["Fetching download page..."%string;
         ("Found bulk XML ZIP URL: " +:+ url)%string;
         ("Downloading " +:+ url +:+ " to "
          +:+ path_str (@ZIP_OUTPUT_PATH happy_env) +:+ "...")%string;
         "Download completed successfully."%string;
         ("Unzipping " +:+ path_str (@ZIP_OUTPUT_PATH happy_env) +:+ " to "
          +:+ path_str (@XML_DIR happy_env) +:+ "...")%string;
         "Unzip complete."%string;
         "USC XML download and extraction complete."%string].
Proof.
  apply (@main_success_report happy_env empty_world). vm_compute. reflexivity.
Defined.

(** ** Whole script: a complete run *)


Section CompleteRun.
Context `{env : Environment}.






End CompleteRun.

